(** * The reference-extraction and cross-linking pipeline of the Scofield
      Bible parser ([scofield_parser.py], class [EnhancedScofieldParser])

    A shallow embedding of the parser's pure core and of the state it
    threads through a run, followed by the properties established about it.

    Modelling conventions.
    - Python [str] values are [string]s.  The text functions ([strip],
      [lower], [title], the character classes of the regular expressions)
      follow Python on ASCII text, i.e. on code points below 128; the
      classes [\s], [\d], [\w] and the case-insensitive letter classes are
      the ASCII restrictions of Python's Unicode-aware ones.
    - Python [int]s that count things are [nat]; the two [float] fields
      ([confidence], [confidence_score]) are exact rationals [Q]: [0.8] is
      [8/10] and [(a + b) / 100] is the exact quotient (the float the
      interpreter stores is its correctly rounded image).
    - Python [dict]s keep insertion order and several loops of the source
      depend on that order (first match wins, [break]); they are modelled as
      association lists with Python's update-in-place / append-if-new
      assignment.
    - [list(set(xs))] has an iteration order that Python does not fix; it is
      a parameter of the section that models the thematic indexer.
    - The compiled patterns are values of a small regular-expression syntax
      interpreted by a backtracking matcher that enumerates the successes in
      the priority order of Python's [re] engine. *)

From Stdlib Require Import String Ascii List Arith Bool Lia QArith Permutation.
From Stdlib Require Import ZArith Qminmax DecimalString DecimalNat.
Import ListNotations.

Local Open Scope string_scope.
Local Open Scope list_scope.
Local Open Scope nat_scope.

Set Implicit Arguments.

(* ====================================================================== *)
(** * Text primitives                                                      *)
(* ====================================================================== *)

Module Text.

Definition code (c : ascii) : nat := nat_of_ascii c.

Definition in_range (lo hi : nat) (c : ascii) : bool :=
  (lo <=? code c) && (code c <=? hi).

(** [\d] *)
Definition is_digit (c : ascii) : bool := in_range 48 57 c.
Definition is_upper (c : ascii) : bool := in_range 65 90 c.
Definition is_lower (c : ascii) : bool := in_range 97 122 c.
(** [[A-Z]] and [[a-z]] under [re.IGNORECASE] *)
Definition is_letter (c : ascii) : bool := is_upper c || is_lower c.
(** [\s] and the characters removed by [str.strip()]:
    tab, LF, VT, FF, CR, FS, GS, RS, US and space. *)
Definition is_space (c : ascii) : bool :=
  in_range 9 13 c || in_range 28 32 c.
(** [\w] *)
Definition is_word (c : ascii) : bool :=
  is_letter c || is_digit c || (code c =? 95).

Definition lower_char (c : ascii) : ascii :=
  if is_upper c then ascii_of_nat (code c + 32) else c.
Definition upper_char (c : ascii) : ascii :=
  if is_lower c then ascii_of_nat (code c - 32) else c.

(** [str.lower()] *)
Fixpoint lower (s : string) : string :=
  match s with
  | EmptyString => EmptyString
  | String c t => String (lower_char c) (lower t)
  end.


(** [str.title()]: a cased character is upper-cased when the previous
    character is not cased and lower-cased otherwise. *)
Fixpoint title_from (prev_cased : bool) (s : string) : string :=
  match s with
  | EmptyString => EmptyString
  | String c t =>
      if is_letter c
      then String (if prev_cased then lower_char c else upper_char c)
                  (title_from true t)
      else String c (title_from false t)
  end.
Definition title (s : string) : string := title_from false s.

Definition is_empty (s : string) : bool :=
  match s with EmptyString => true | _ => false end.

Fixpoint lstrip (s : string) : string :=
  match s with
  | EmptyString => EmptyString
  | String c t => if is_space c then lstrip t else s
  end.

Fixpoint rstrip (s : string) : string :=
  match s with
  | EmptyString => EmptyString
  | String c t =>
      let t' := rstrip t in
      if is_space c && is_empty t' then EmptyString else String c t'
  end.

(** [str.strip()] *)
Definition strip (s : string) : string := rstrip (lstrip s).

(** [s.startswith(p)] *)
Fixpoint startswith (p s : string) : bool :=
  match p, s with
  | EmptyString, _ => true
  | String a p', String b s' => Ascii.eqb a b && startswith p' s'
  | String _ _, EmptyString => false
  end.

(** [needle in hay] *)
Fixpoint contains (needle hay : string) : bool :=
  startswith needle hay ||
  match hay with
  | EmptyString => false
  | String _ t => contains needle t
  end.

(** [s[:-1]] *)
Fixpoint drop_last (s : string) : string :=
  match s with
  | EmptyString => EmptyString
  | String c EmptyString => EmptyString
  | String c t => String c (drop_last t)
  end.

(** [s.split(sep)] for a one-character separator: every occurrence
    splits, empty pieces are kept. *)
Fixpoint split_char (sep : ascii) (s : string) : list string :=
  match s with
  | EmptyString => [EmptyString]
  | String c t =>
      if Ascii.eqb c sep then EmptyString :: split_char sep t
      else match split_char sep t with
           | h :: r => String c h :: r
           | [] => [String c EmptyString]
           end
  end.

(** [re.split(r'[cls]+', s)]: a maximal run of separator characters
    splits once; a leading or trailing run leaves an empty piece. *)
Fixpoint re_split_run (sep : ascii -> bool) (in_run : bool) (s : string)
  : list string :=
  match s with
  | EmptyString => [EmptyString]
  | String c t =>
      if sep c then
        if in_run then re_split_run sep true t
        else EmptyString :: re_split_run sep true t
      else match re_split_run sep false t with
           | h :: r => String c h :: r
           | [] => [String c EmptyString]
           end
  end.
Definition re_split (sep : ascii -> bool) (s : string) : list string :=
  re_split_run sep false s.

Definition all_chars (p : ascii -> bool) (s : string) : bool :=
  forallb p (list_ascii_of_string s).

Definition digit_value (c : ascii) : nat := code c - 48.

(** [int(s)] on a string of decimal digits, as captured by [\d+]. *)
Definition int_of_digits (s : string) : nat :=
  fold_left (fun acc c => 10 * acc + digit_value c)
            (list_ascii_of_string s) 0.

(** [str(n)] / [f"{n}"] for a non-negative [int]. *)
Definition str_of_nat (n : nat) : string :=
  NilEmpty.string_of_uint (Nat.to_uint n).

Fixpoint repeat_char (c : ascii) (n : nat) : string :=
  match n with
  | O => EmptyString
  | S k => String c (repeat_char c k)
  end.

(** [f"{n:0{w}d}"]: decimal, left-padded with zeros to width [w]. *)
Definition zero_pad (w n : nat) : string :=
  let d := str_of_nat n in
  (repeat_char "0"%char (w - String.length d) ++ d)%string.

End Text.

(* ====================================================================== *)
(** * A backtracking matcher for the compiled patterns                      *)
(* ====================================================================== *)

Module Regex.

(** The fragment of the pattern language the parser's expressions use.
    Repetition only occurs on character classes. *)
Inductive regex : Type :=
| Chr (p : ascii -> bool)            (* one character of a class *)
| Seq (r1 r2 : regex)                (* r1 r2 *)
| Alt (r1 r2 : regex)                (* r1|r2 *)
| Opt (r : regex)                    (* r?   (greedy) *)
| Plus (p : ascii -> bool)           (* [class]+ (greedy) *)
| Group (n : nat) (r : regex).       (* the n-th capturing group *)

(** Captured groups, most recent binding first. *)
Definition captures := list (nat * string).

Fixpoint group (n : nat) (cs : captures) : option string :=
  match cs with
  | [] => None
  | (k, v) :: r => if Nat.eqb k n then Some v else group n r
  end.

(** One success of a (sub)pattern: the text it consumed, the groups
    bound so far and the input that is left. *)
Record success := Success {
  matched : string;
  groups : captures;
  remaining : string
}.

(** The ways [p+] can consume a prefix, longest first. *)
Fixpoint plus_class (p : ascii -> bool) (s : string)
  : list (string * string) :=
  match s with
  | EmptyString => []
  | String c t =>
      if p c then
        map (fun mr => (String c (fst mr), snd mr)) (plus_class p t)
          ++ [(String c EmptyString, t)]
      else []
  end.

(** All successes of [r] on input [s], in the order in which a
    backtracking engine tries them; the head of the list is the match
    that [re] reports. *)
Fixpoint run (r : regex) (cs : captures) (s : string) : list success :=
  match r with
  | Chr p =>
      match s with
      | String c t =>
          if p c then [Success (String c EmptyString) cs t] else []
      | EmptyString => []
      end
  | Seq r1 r2 =>
      flat_map
        (fun a =>
           map (fun b => Success (matched a ++ matched b)%string
                                 (groups b) (remaining b))
               (run r2 (groups a) (remaining a)))
        (run r1 cs s)
  | Alt r1 r2 => run r1 cs s ++ run r2 cs s
  | Opt r1 => run r1 cs s ++ [Success EmptyString cs s]
  | Plus p =>
      map (fun mr => Success (fst mr) cs (snd mr)) (plus_class p s)
  | Group n r1 =>
      map (fun a => Success (matched a) ((n, matched a) :: groups a)
                            (remaining a))
          (run r1 cs s)
  end.

(** The success a backtracking engine reports: the first one. *)
Definition first_success (r : regex) (cs : captures) (s : string)
  : option success :=
  match run r cs s with
  | a :: _ => Some a
  | [] => None
  end.

(** [re.match(r, s)]: the first success anchored at the start. *)
Definition re_match (r : regex) (s : string) : option success :=
  first_success r [] s.

(** [pattern.findall(s)] for a pattern with exactly one group: the
    group-1 texts of the non-overlapping matches, scanning left to right.
    [skip] counts the characters of the previous match still to be
    stepped over. *)
Fixpoint findall_from (r : regex) (skip : nat) (s : string) : list string :=
  match skip with
  | S k =>
      match s with
      | String _ t => findall_from r k t
      | EmptyString => []
      end
  | O =>
      match re_match r s with
      | Some a =>
          let g := match group 1 (groups a) with
                   | Some v => v
                   | None => EmptyString
                   end in
          match s with
          | String _ t => g :: findall_from r (String.length (matched a) - 1) t
          | EmptyString => [g]
          end
      | None =>
          match s with
          | String _ t => findall_from r 0 t
          | EmptyString => []
          end
      end
  end.
Definition findall (r : regex) (s : string) : list string :=
  findall_from r 0 s.

(** Patterns without capturing groups. *)
Fixpoint group_free (r : regex) : bool :=
  match r with
  | Chr _ | Plus _ => true
  | Seq r1 r2 | Alt r1 r2 => group_free r1 && group_free r2
  | Opt r1 => group_free r1
  | Group _ _ => false
  end.

(** A literal under [re.IGNORECASE]. *)
Definition chr_ci (c : ascii) : regex :=
  Chr (fun x => Ascii.eqb (Text.lower_char x) (Text.lower_char c)).
Definition chr_eq (c : ascii) : regex := Chr (Ascii.eqb c).

Fixpoint lit_ci (c : ascii) (s : string) : regex :=
  match s with
  | EmptyString => chr_ci c
  | String d t => Seq (chr_ci c) (lit_ci d t)
  end.

End Regex.

Import Text Regex.

Declare Scope regex_scope.
Delimit Scope regex_scope with re.
Bind Scope regex_scope with regex.
Infix ";;" := Seq (at level 61, right associativity) : regex_scope.
Infix "<|>" := Alt (at level 62, right associativity) : regex_scope.

(* ====================================================================== *)
(** * Insertion-ordered dictionaries                                       *)
(* ====================================================================== *)

Section Dict.
Variable V : Type.

Definition dict := list (string * V).

(** [d.get(k)] *)
Fixpoint dict_get (k : string) (d : dict) : option V :=
  match d with
  | [] => None
  | (k', v) :: r => if String.eqb k' k then Some v else dict_get k r
  end.

(** [k in d] *)
Definition dict_mem (k : string) (d : dict) : bool :=
  match dict_get k d with Some _ => true | None => false end.

(** [d[k] = v]: an existing key keeps its position, a new key goes to
    the end. *)
Fixpoint dict_set (k : string) (v : V) (d : dict) : dict :=
  match d with
  | [] => [(k, v)]
  | (k', v') :: r =>
      if String.eqb k' k then (k', v) :: r else (k', v') :: dict_set k v r
  end.

(** In-place mutation of the object stored under [k], if any. *)
Fixpoint dict_update (k : string) (f : V -> V) (d : dict) : dict :=
  match d with
  | [] => []
  | (k', v') :: r =>
      if String.eqb k' k then (k', f v') :: r
      else (k', v') :: dict_update k f r
  end.

Definition dict_keys (d : dict) : list string := map fst d.
Definition dict_values (d : dict) : list V := map snd d.
End Dict.

(* ====================================================================== *)
(** * Bible data constants                                                 *)
(* ====================================================================== *)

Definition BIBLE_BOOKS : dict string :=
  [ ("GEN", "Genesis"); ("EXO", "Exodus"); ("LEV", "Leviticus");
    ("NUM", "Numbers"); ("DEU", "Deuteronomy"); ("JOS", "Joshua");
    ("JDG", "Judges"); ("RUT", "Ruth"); ("1SA", "1 Samuel");
    ("2SA", "2 Samuel"); ("1KI", "1 Kings"); ("2KI", "2 Kings");
    ("1CH", "1 Chronicles"); ("2CH", "2 Chronicles"); ("EZR", "Ezra");
    ("NEH", "Nehemiah"); ("EST", "Esther"); ("JOB", "Job");
    ("PSA", "Psalms"); ("PRO", "Proverbs"); ("ECC", "Ecclesiastes");
    ("SON", "Song of Solomon"); ("ISA", "Isaiah"); ("JER", "Jeremiah");
    ("LAM", "Lamentations"); ("EZE", "Ezekiel"); ("DAN", "Daniel");
    ("HOS", "Hosea"); ("JOE", "Joel"); ("AMO", "Amos"); ("OBA", "Obadiah");
    ("JON", "Jonah"); ("MIC", "Micah"); ("NAH", "Nahum");
    ("HAB", "Habakkuk"); ("ZEP", "Zephaniah"); ("HAG", "Haggai");
    ("ZEC", "Zechariah"); ("MAL", "Malachi"); ("MAT", "Matthew");
    ("MAR", "Mark"); ("LUK", "Luke"); ("JOH", "John"); ("ACT", "Acts");
    ("ROM", "Romans"); ("1CO", "1 Corinthians"); ("2CO", "2 Corinthians");
    ("GAL", "Galatians"); ("EPH", "Ephesians"); ("PHI", "Philippians");
    ("COL", "Colossians"); ("1TH", "1 Thessalonians");
    ("2TH", "2 Thessalonians"); ("1TI", "1 Timothy"); ("2TI", "2 Timothy");
    ("TIT", "Titus"); ("PHM", "Philemon"); ("HEB", "Hebrews");
    ("JAM", "James"); ("1PE", "1 Peter"); ("2PE", "2 Peter");
    ("1JO", "1 John"); ("2JO", "2 John"); ("3JO", "3 John");
    ("JUD", "Jude"); ("REV", "Revelation") ].

Definition BOOK_CHAPTER_COUNTS : dict nat :=
  [ ("GEN", 50); ("EXO", 40); ("LEV", 27); ("NUM", 36); ("DEU", 34);
    ("JOS", 24); ("JDG", 21); ("RUT", 4); ("1SA", 31); ("2SA", 24);
    ("1KI", 22); ("2KI", 25); ("1CH", 29); ("2CH", 36); ("EZR", 10);
    ("NEH", 13); ("EST", 10); ("JOB", 42); ("PSA", 150); ("PRO", 31);
    ("ECC", 12); ("SON", 8); ("ISA", 66); ("JER", 52); ("LAM", 5);
    ("EZE", 48); ("DAN", 12); ("HOS", 14); ("JOE", 3); ("AMO", 9);
    ("OBA", 1); ("JON", 4); ("MIC", 7); ("NAH", 3); ("HAB", 3);
    ("ZEP", 3); ("HAG", 2); ("ZEC", 14); ("MAL", 4); ("MAT", 28);
    ("MAR", 16); ("LUK", 24); ("JOH", 21); ("ACT", 28); ("ROM", 16);
    ("1CO", 16); ("2CO", 13); ("GAL", 6); ("EPH", 6); ("PHI", 4);
    ("COL", 4); ("1TH", 5); ("2TH", 3); ("1TI", 6); ("2TI", 4);
    ("TIT", 3); ("PHM", 1); ("HEB", 13); ("JAM", 5); ("1PE", 5);
    ("2PE", 3); ("1JO", 5); ("2JO", 1); ("3JO", 1); ("JUD", 1);
    ("REV", 22) ].

Definition SCOFIELD_THEMES : list string :=
  [ (* Major Scofield Doctrines *)
    "Dispensation"; "Covenant Theology"; "Grace"; "Law vs. Grace";
    "Prophecy"; "Kingdom of God"; "Church Age"; "Israel and the Church";
    "Gentiles"; "Salvation"; "Atonement"; "Justification";
    "Sanctification"; "Glorification"; "Eschatology"; "Second Coming";
    "Millennium"; "Great White Throne"; "Rapture"; "Tribulation";
    "Antichrist"; "Resurrection"; "Judgment"; "Heaven"; "Hell";
    "New Jerusalem"; "Eternal State";
    (* Biblical Themes *)
    "Creation"; "Fall of Man"; "Redemption"; "Covenants"; "Promise";
    "Faith"; "Hope"; "Love"; "Sin"; "Repentance"; "Forgiveness"; "Mercy";
    "Justice"; "Holiness"; "Righteousness";
    (* Christological Themes *)
    "Deity of Christ"; "Humanity of Christ"; "Virgin Birth"; "Incarnation";
    "Atoning Death"; "Resurrection"; "Ascension"; "High Priest";
    "Mediator"; "Advocate"; "King of Kings"; "Lord of Lords" ].

(* ====================================================================== *)
(** * Reference parser                                                     *)
(* ====================================================================== *)

(** The table [variations] of [_book_name_to_abbrev]. *)
Definition variations : dict string :=
  [ ("Psalms", "PSA"); ("Psalm", "PSA"); ("Song of Solomon", "SON");
    ("Song of Songs", "SON"); ("Ecclesiastes", "ECC");
    ("Revelation", "REV"); ("Revelations", "REV") ].

(** The two loops over [BIBLE_BOOKS.items()]: first entry that passes. *)
Fixpoint first_key (test : string -> bool) (d : dict string) : option string :=
  match d with
  | [] => None
  | (abbrev, full_name) :: r =>
      if test full_name then Some abbrev else first_key test r
  end.

Definition _book_name_to_abbrev (book_name : string) : option string :=
  let book_name := title (strip book_name) in
  match dict_get book_name variations with
  | Some abbrev => Some abbrev
  | None =>
      match first_key (fun full_name =>
                         String.eqb (lower full_name) (lower book_name))
                      BIBLE_BOOKS with
      | Some abbrev => Some abbrev
      | None =>
          first_key (fun full_name =>
                       contains (lower book_name) (lower full_name))
                    BIBLE_BOOKS
      end
  end.

(** [[1-3]?\s?[A-Z][a-z]+] (case-insensitive) *)
Definition book_token : regex :=
  (Opt (Chr (in_range 49 51)) ;; Opt (Chr is_space) ;;
   Chr is_letter ;; Plus is_letter)%re.

(** [([1-3]?\s?[A-Z][a-z]+)\.?\s+(\d+):(\d+)(?:-(\d+))?] with
    [re.IGNORECASE], the pattern of [_parse_verse_reference]. *)
Definition reference_pattern : regex :=
  (Group 1 book_token ;; Opt (chr_eq ".") ;; Plus is_space ;;
   Group 2 (Plus is_digit) ;; chr_eq ":" ;; Group 3 (Plus is_digit) ;;
   Opt (chr_eq "-" ;; Group 4 (Plus is_digit)))%re.

(** [range(start, stop)] *)
Definition py_range (start stop : nat) : list nat := seq start (stop - start).

(** [f"{book_abbrev}.{chapter}.{verse_num}"]; [chapter] is the matched
    text, [verse_num] an integer. *)
Definition format_verse_id (book_abbrev chapter : string) (verse_num : nat)
  : string :=
  (book_abbrev ++ "." ++ chapter ++ "." ++ str_of_nat verse_num)%string.

(** The result of [match.groups()] for [reference_pattern]. *)
Definition reference_groups (ref_part : string)
  : option (string * string * string * option string) :=
  match re_match reference_pattern ref_part with
  | Some m =>
      match group 1 (groups m), group 2 (groups m), group 3 (groups m) with
      | Some book_name, Some chapter, Some start_verse =>
          Some (book_name, chapter, start_verse, group 4 (groups m))
      | _, _, _ => None
      end
  | None => None
  end.

(** The body of the loop over [ref_parts], after the [strip] and the
    emptiness test: the verse ids one fragment contributes. *)
Definition parse_fragment (ref_part : string) : list string :=
  match reference_groups ref_part with
  | Some (book_name, chapter, start_verse, end_verse) =>
      match _book_name_to_abbrev book_name with
      | Some book_abbrev =>
          let start := int_of_digits start_verse in
          let end_ := match end_verse with
                      | Some e => int_of_digits e
                      | None => start
                      end in
          map (format_verse_id book_abbrev chapter) (py_range start (end_ + 1))
      | None => []
      end
  | None => []
  end.

(** [[;,]] *)
Definition is_ref_separator (c : ascii) : bool :=
  Ascii.eqb c ";" || Ascii.eqb c ",".

(** The stripped, non-empty candidate fragments of a reference string. *)
Definition ref_parts (ref_str : string) : list string :=
  filter (fun p => negb (is_empty p))
         (map strip (re_split is_ref_separator ref_str)).

Definition _parse_verse_reference (ref_str : string) : list string :=
  flat_map parse_fragment (ref_parts ref_str).

(* ====================================================================== *)
(** * Enums and data models                                                *)
(* ====================================================================== *)

Inductive NoteType : Type :=
| EXPLANATORY | DOCTRINAL | PROPHETIC | HISTORICAL | PRACTICAL
| THEMATIC_NOTE | CROSS_REFERENCE.

Definition NoteType_value (t : NoteType) : string :=
  match t with
  | EXPLANATORY => "explanatory" | DOCTRINAL => "doctrinal"
  | PROPHETIC => "prophetic" | HISTORICAL => "historical"
  | PRACTICAL => "practical" | THEMATIC_NOTE => "thematic"
  | CROSS_REFERENCE => "cross_reference"
  end.

Inductive ReferenceType : Type :=
| PARALLEL | FULFILLMENT | QUOTATION | THEMATIC | TYPOLOGICAL | CONTRAST
| EXPLANATION.

Definition ReferenceType_value (t : ReferenceType) : string :=
  match t with
  | PARALLEL => "parallel" | FULFILLMENT => "fulfillment"
  | QUOTATION => "quotation" | THEMATIC => "thematic"
  | TYPOLOGICAL => "typological" | CONTRAST => "contrast"
  | EXPLANATION => "explanation"
  end.

Record BibleVerse := {
  book : string;
  chapter : Z;
  verse : Z;
  text : string;
  note_ids : list string;
  keywords : list string
}.

Record ScofieldNote := {
  note_id : string;
  note_text : string;
  linked_verses : list string;
  note_type : string;
  category : string;
  subcategory : string;
  note_keywords : list string;
  theme_tags : list string;
  related_notes : list string
}.

Record CrossReference := {
  source_id : string;
  target_id : string;
  ref_type : string;
  description : string;
  confidence : Q;
  tags : list string
}.

Record ThematicIndex := {
  theme_id : string;
  name : string;
  theme_description : string;
  theme_note_ids : list string;
  verse_ids : list string;
  categories : list string;
  sub_themes : list string;
  parent_themes : list string;
  confidence_score : Q
}.

Record ReadingPlan := {
  plan_id : string;
  plan_name : string;
  plan_description : string;
  days : list (list string);
  theme : string;
  estimated_minutes : nat;
  plan_tags : list string
}.

(** [CrossReference.is_note_to_verse] and [CrossReference.is_verse_to_verse] *)
Definition is_note_to_verse (x : CrossReference) : bool :=
  startswith "N" (source_id x) && negb (startswith "N" (target_id x)).
Definition is_verse_to_verse (x : CrossReference) : bool :=
  negb (startswith "N" (source_id x)) && negb (startswith "N" (target_id x)).

(** [ThematicIndex.total_references] *)
Definition total_references (t : ThematicIndex) : nat :=
  length (theme_note_ids t) + length (verse_ids t).

(** [ReadingPlan.to_dict()["total_verses"]] *)
Definition total_verses (p : ReadingPlan) : nat :=
  list_sum (map (@length string) (days p)).

(** The constructor call of [_parse_notes_tsv], with the defaults of the
    dataclass and its [__post_init__]. *)
Definition new_note (id txt : string) (linked : list string)
           (cat : string) (kws tags : list string) : ScofieldNote :=
  {| note_id := if startswith "N" id then id else ("N" ++ id)%string;
     note_text := txt;
     linked_verses := linked;
     note_type := NoteType_value EXPLANATORY;
     category := cat;
     subcategory := "";
     note_keywords := kws;
     theme_tags := tags;
     related_notes := [] |}.

(* ====================================================================== *)
(** * Parser state                                                         *)
(* ====================================================================== *)

Record parser := {
  verses : dict BibleVerse;
  notes : dict ScofieldNote;
  cross_refs : list CrossReference;
  thematic_index : dict ThematicIndex;
  reading_plans : dict ReadingPlan;
  note_counter : nat;
  theme_counter : nat;
  plan_counter : nat
}.

(** [EnhancedScofieldParser.__init__] *)
Definition init_parser : parser :=
  {| verses := []; notes := []; cross_refs := []; thematic_index := [];
     reading_plans := []; note_counter := 1; theme_counter := 1;
     plan_counter := 1 |}.

(* ====================================================================== *)
(** * Note builder and cross-reference extractor                           *)
(* ====================================================================== *)

(** [(?:See|cf\.|compare|v\.?|verse)] *)
Definition cue_phrase : regex :=
  (lit_ci "S" "ee" <|> (lit_ci "c" "f" ;; chr_eq ".") <|>
   lit_ci "c" "ompare" <|> (chr_ci "v" ;; Opt (chr_eq ".")) <|>
   lit_ci "v" "erse")%re.

(** [self.cross_ref_pattern]:
    [(?:See|cf\.|compare|v\.?|verse)\s+([1-3]?\s?[A-Z][a-z]+\.?\s+\d+:\d+)]
    with [re.IGNORECASE]. *)
Definition cross_ref_pattern : regex :=
  (cue_phrase ;; Plus is_space ;;
   Group 1 (book_token ;; Opt (chr_eq ".") ;; Plus is_space ;;
            Plus is_digit ;; chr_eq ":" ;; Plus is_digit))%re.

(** The edge built in the inner loop of [_extract_cross_refs_from_note]. *)
Definition explanation_edge (note_id target_id : string) : CrossReference :=
  {| source_id := note_id;
     target_id := target_id;
     ref_type := ReferenceType_value EXPLANATION;
     description := ("Referenced in note " ++ note_id)%string;
     confidence := 0.8%Q;
     tags := [] |}.

(** The edges [_extract_cross_refs_from_note] appends, in order. *)
Definition extracted_cross_refs (note_id note_text : string)
  : list CrossReference :=
  flat_map (fun ref_str =>
              map (explanation_edge note_id) (_parse_verse_reference ref_str))
           (findall cross_ref_pattern note_text).

Definition _extract_cross_refs_from_note (note_id note_text : string)
           (st : parser) : parser :=
  {| verses := verses st; notes := notes st;
     cross_refs := cross_refs st ++ extracted_cross_refs note_id note_text;
     thematic_index := thematic_index st;
     reading_plans := reading_plans st;
     note_counter := note_counter st; theme_counter := theme_counter st;
     plan_counter := plan_counter st |}.

(** [\b]: exactly one of the characters around the position is a word
    character. *)
Definition word_boundary (prev : option ascii) (s : string) : bool :=
  xorb (match prev with Some c => is_word c | None => false end)
       (match s with String c _ => is_word c | EmptyString => false end).

(** [re.search(r'\b' + re.escape(lit), s)], scanning from a position whose
    preceding character is [prev]. *)
Fixpoint search_word_start_from (prev : option ascii) (lit s : string) : bool :=
  (word_boundary prev s && startswith lit s) ||
  match s with
  | String c t => search_word_start_from (Some c) lit t
  | EmptyString => false
  end.
Definition search_word_start (lit s : string) : bool :=
  search_word_start_from None lit s.

(** The condition of the loop of [_extract_themes_from_note]. *)
Definition theme_matches (note_lower theme : string) : bool :=
  let theme_lower := lower theme in
  contains theme_lower note_lower ||
  search_word_start (drop_last theme_lower) note_lower.

Definition _extract_themes_from_note (note_text : string) : list string :=
  let note_lower := lower note_text in
  filter (theme_matches note_lower) SCOFIELD_THEMES.

(** [f"N{self.note_counter:04d}"] *)
Definition format_note_id (counter : nat) : string :=
  ("N" ++ zero_pad 4 counter)%string.

(** [v.note_ids.extend(ids)]; [v.note_ids.append(note_id)] is the case
    of one id. *)
Definition extend_note_ids (ids : list string) (v : BibleVerse) : BibleVerse :=
  {| book := book v; chapter := chapter v; verse := verse v; text := text v;
     note_ids := note_ids v ++ ids; keywords := keywords v |}.

(** The loop "Link note to verses". *)
Definition link_note_to_verses (note_id : string) (verse_refs : list string)
           (vs : dict BibleVerse) : dict BibleVerse :=
  fold_left
    (fun vs verse_id =>
       if dict_mem verse_id vs
       then dict_update verse_id (extend_note_ids [note_id]) vs
       else vs)
    verse_refs vs.

Definition tab : ascii := ascii_of_nat 9.

(** The columns of a line that [_parse_notes_tsv] goes on to read: the
    line is stripped, is neither empty nor a comment and has at least
    three tab-separated parts. *)
Definition note_row (line : string) : option (list string) :=
  let line := strip line in
  if is_empty line || startswith "#" line then None
  else
    let parts := split_char tab line in
    if 3 <=? length parts then Some parts else None.

(** One iteration of the loop of [_parse_notes_tsv]. *)
Definition parse_note_line (st : parser) (line : string) : parser :=
  match note_row line with
  | None => st
  | Some parts =>
      let ref_str := strip (nth 0 parts "") in
      let note_text := strip (nth 1 parts "") in
      let category := if 2 <? length parts then strip (nth 2 parts "") else "" in
      let keywords := if 3 <? length parts
                      then split_char "," (nth 3 parts "") else [] in
      let verse_refs := _parse_verse_reference ref_str in
      match verse_refs with
      | [] => st
      | _ :: _ =>
          let note_id := format_note_id (note_counter st) in
          let note :=
            new_note note_id note_text verse_refs category
                     (filter (fun k => negb (is_empty k)) (map strip keywords))
                     (_extract_themes_from_note note_text) in
          _extract_cross_refs_from_note note_id note_text
            {| verses := link_note_to_verses note_id verse_refs (verses st);
               notes := dict_set note_id note (notes st);
               cross_refs := cross_refs st;
               thematic_index := thematic_index st;
               reading_plans := reading_plans st;
               note_counter := note_counter st + 1;
               theme_counter := theme_counter st;
               plan_counter := plan_counter st |}
      end
  end.

(** [_parse_notes_tsv] on the lines of the file. *)
Definition _parse_notes_tsv (lines : list string) (st : parser) : parser :=
  fold_left parse_note_line lines st.

(* ====================================================================== *)
(** * Thematic indexer                                                     *)
(* ====================================================================== *)

(** [d[k].append(x)] on a [defaultdict(list)]. *)
Definition dd_append (k x : string) (d : dict (list string))
  : dict (list string) :=
  match dict_get k d with
  | Some l => dict_set k (l ++ [x]) d
  | None => dict_set k [x] d
  end.

(** [d[k].extend(xs)] on a [defaultdict(list)]; the key is created even
    when [xs] is empty. *)
Definition dd_extend (k : string) (xs : list string) (d : dict (list string))
  : dict (list string) :=
  match dict_get k d with
  | Some l => dict_set k (l ++ xs) d
  | None => dict_set k xs d
  end.

(** [min(a, b)]: the first argument unless the second is strictly smaller. *)
Definition py_min (a b : Q) : Q := if Qlt_le_dec b a then b else a.

(** [min(1.0, (note_count + verse_count) / 100)] *)
Definition theme_confidence (note_count verse_count : nat) : Q :=
  py_min 1 (inject_Z (Z.of_nat (note_count + verse_count)) / 100).

(** [f"T{self.theme_counter:03d}"] and [f"P{self.plan_counter:03d}"] *)
Definition format_theme_id (counter : nat) : string :=
  ("T" ++ zero_pad 3 counter)%string.
Definition format_plan_id (counter : nat) : string :=
  ("P" ++ zero_pad 3 counter)%string.

(** The table [theme_hierarchies] of [_build_theme_relationships]. *)
Definition theme_hierarchies : list (string * list string) :=
  [ ("Dispensation", ["Law vs. Grace"; "Church Age"; "Millennium"]);
    ("Covenant Theology", ["Promise"; "Israel and the Church"]);
    ("Eschatology", ["Second Coming"; "Rapture"; "Tribulation"; "Millennium"]);
    ("Salvation", ["Justification"; "Sanctification"; "Glorification"]);
    ("Christological Themes",
       ["Deity of Christ"; "Humanity of Christ"; "Atoning Death"]) ].

(** Mutation of the object at a position of a dictionary. *)
Fixpoint update_at {V : Type} (i : nat) (f : V -> V) (d : dict V) {struct d}
  : dict V :=
  match d, i with
  | [], _ => []
  | (k, v) :: r, O => (k, f v) :: r
  | kv :: r, S j => kv :: update_at j f r
  end.

(** [idx.parent_themes.append(p)] and [idx.sub_themes.append(c)] *)
Definition append_parent (p : string) (t : ThematicIndex) : ThematicIndex :=
  {| theme_id := theme_id t; name := name t;
     theme_description := theme_description t;
     theme_note_ids := theme_note_ids t; verse_ids := verse_ids t;
     categories := categories t; sub_themes := sub_themes t;
     parent_themes := parent_themes t ++ [p];
     confidence_score := confidence_score t |}.
Definition append_sub (c : string) (t : ThematicIndex) : ThematicIndex :=
  {| theme_id := theme_id t; name := name t;
     theme_description := theme_description t;
     theme_note_ids := theme_note_ids t; verse_ids := verse_ids t;
     categories := categories t; sub_themes := sub_themes t ++ [c];
     parent_themes := parent_themes t;
     confidence_score := confidence_score t |}.

(** The position of the first theme whose name is [nm]: the loop with
    [break] that finds [parent_theme] (and [theme_entry] in the plan
    generator). *)
Fixpoint find_theme (nm : string) (idx : dict ThematicIndex) : option nat :=
  match idx with
  | [] => None
  | (_, t) :: r =>
      if String.eqb (name t) nm then Some 0
      else option_map S (find_theme nm r)
  end.

(** One iteration of the innermost loop: the theme at position [j] is
    tested against [child_name]; on a hit both objects are mutated, the
    child first.  [p] is the position of [parent_theme]. *)
Definition link_step (p : nat) (child_name : string)
           (idx : dict ThematicIndex) (j : nat) : dict ThematicIndex :=
  match nth_error idx j, nth_error idx p with
  | Some (child_key, child), Some (_, parent_theme) =>
      if String.eqb (name child) child_name then
        update_at p (append_sub child_key)
                  (update_at j (append_parent (theme_id parent_theme)) idx)
      else idx
  | _, _ => idx
  end.

Definition link_child (p : nat) (idx : dict ThematicIndex)
           (child_name : string) : dict ThematicIndex :=
  fold_left (link_step p child_name) (seq 0 (length idx)) idx.

Definition link_hierarchy (idx : dict ThematicIndex)
           (h : string * list string) : dict ThematicIndex :=
  match find_theme (fst h) idx with
  | Some p => fold_left (link_child p) (snd h) idx
  | None => idx
  end.

(** [_build_theme_relationships] on the index table. *)
Definition _build_theme_relationships (idx : dict ThematicIndex)
  : dict ThematicIndex :=
  fold_left link_hierarchy theme_hierarchies idx.

Section ThematicNetwork.

(** [list(set(xs))]: the distinct elements of [xs] in an order Python
    does not specify. *)
Variable list_of_set : list string -> list string.

(** "Process notes" *)
Definition collect_notes (ns : dict ScofieldNote)
  : dict (list string) * dict (list string) :=
  fold_left
    (fun acc kv =>
       fold_left
         (fun acc theme =>
            (dd_append theme (fst kv) (fst acc),
             dd_extend theme (linked_verses (snd kv)) (snd acc)))
         (theme_tags (snd kv)) acc)
    ns ([], []).

(** "Process verses" *)
Definition collect_verses (vs : dict BibleVerse)
           (theme_to_verses : dict (list string)) : dict (list string) :=
  fold_left
    (fun acc kv =>
       fold_left
         (fun acc keyword =>
            if existsb (String.eqb (title keyword)) SCOFIELD_THEMES
            then dd_append (title keyword) (fst kv) acc
            else acc)
         (keywords (snd kv)) acc)
    vs theme_to_verses.

(** The [ThematicIndex(...)] built for one theme. *)
Definition new_theme (tid theme_name : string)
           (note_ids verse_ids : list string) : ThematicIndex :=
  {| theme_id := tid;
     name := theme_name;
     theme_description :=
       ("References to " ++ theme_name ++ " in Scofield notes")%string;
     theme_note_ids := note_ids;
     verse_ids := verse_ids;
     categories := [];
     sub_themes := [];
     parent_themes := [];
     confidence_score :=
       theme_confidence (length note_ids) (length verse_ids) |}.

(** "Create thematic index entries": one iteration. *)
Definition materialize (theme_to_verses : dict (list string))
           (acc : dict ThematicIndex * nat) (kv : string * list string)
  : dict ThematicIndex * nat :=
  let theme_id := format_theme_id (snd acc) in
  let verse_ids :=
    list_of_set (match dict_get (fst kv) theme_to_verses with
                 | Some l => l
                 | None => []
                 end) in
  (dict_set theme_id (new_theme theme_id (fst kv) (snd kv) verse_ids)
            (fst acc),
   snd acc + 1).

Definition build_thematic_network (st : parser) : parser :=
  let collected := collect_notes (notes st) in
  let theme_to_notes := fst collected in
  let theme_to_verses := collect_verses (verses st) (snd collected) in
  let built :=
    fold_left (materialize theme_to_verses) theme_to_notes
              (thematic_index st, theme_counter st) in
  {| verses := verses st; notes := notes st; cross_refs := cross_refs st;
     thematic_index := _build_theme_relationships (fst built);
     reading_plans := reading_plans st;
     note_counter := note_counter st;
     theme_counter := snd built;
     plan_counter := plan_counter st |}.

End ThematicNetwork.

(* ====================================================================== *)
(** * Reading-plan generator                                               *)
(* ====================================================================== *)

Definition major_themes : list string :=
  ["Dispensation"; "Covenant Theology"; "Salvation"; "Eschatology"].

(** "Group verses by book for organized reading" *)
Definition group_by_book (vs : dict BibleVerse) (ids : list string)
  : dict (list string) :=
  fold_left
    (fun by_book verse_id =>
       match dict_get verse_id vs with
       | Some v => dd_append (book v) verse_id by_book
       | None => by_book
       end)
    ids [].

(** The body of the innermost loop of "Create daily readings", on the pair
    [(days, current_day)]. *)
Definition pack_step (acc : list (list string) * list string)
           (verse_id : string) : list (list string) * list string :=
  if 10 <=? length (snd acc)
  then (fst acc ++ [snd acc], [verse_id])
  else (fst acc, snd acc ++ [verse_id]).

Definition pack_days (verses_by_book : dict (list string))
  : list (list string) :=
  let acc :=
    fold_left
      (fun acc kv => fold_left pack_step (firstn 20 (snd kv)) acc)
      verses_by_book ([], []) in
  match snd acc with
  | [] => fst acc
  | _ :: _ => fst acc ++ [snd acc]
  end.

(** The days of the plan for one theme entry. *)
Definition plan_days (vs : dict BibleVerse) (t : ThematicIndex)
  : list (list string) :=
  pack_days (group_by_book vs (verse_ids t)).

Definition new_plan (pid theme_name : string) (ds : list (list string))
  : ReadingPlan :=
  {| plan_id := pid;
     plan_name := ("Scofield Study: " ++ theme_name)%string;
     plan_description :=
       ("Study " ++ theme_name ++ " through key Scofield references")%string;
     days := ds;
     theme := theme_name;
     estimated_minutes := length ds * 15;
     plan_tags := [theme_name; "Scofield"; "Study"] |}.

(** One iteration of the loop over [major_themes], on the pair
    [(reading_plans, plan_counter)]. *)
Definition plan_for_theme (vs : dict BibleVerse) (idx : dict ThematicIndex)
           (acc : dict ReadingPlan * nat) (theme_name : string)
  : dict ReadingPlan * nat :=
  match find_theme theme_name idx with
  | Some p =>
      match nth_error idx p with
      | Some (_, theme_entry) =>
          if 10 <? total_references theme_entry then
            let plan_id := format_plan_id (snd acc) in
            match plan_days vs theme_entry with
            | [] => acc
            | ds => (dict_set plan_id (new_plan plan_id theme_name ds)
                              (fst acc),
                     snd acc + 1)
            end
          else acc
      | None => acc
      end
  | None => acc
  end.

Definition generate_reading_plans (st : parser) : parser :=
  let r := fold_left (plan_for_theme (verses st) (thematic_index st))
                     major_themes (reading_plans st, plan_counter st) in
  {| verses := verses st; notes := notes st; cross_refs := cross_refs st;
     thematic_index := thematic_index st;
     reading_plans := fst r;
     note_counter := note_counter st; theme_counter := theme_counter st;
     plan_counter := snd r |}.

(* ====================================================================== *)
(** * Vocabulary of the statements                                         *)
(* ====================================================================== *)

(** The character before a position reached after reading [s], when the
    character before [s] is [prev]. *)
Fixpoint last_char (prev : option ascii) (s : string) : option ascii :=
  match s with
  | EmptyString => prev
  | String c t => last_char (Some c) t
  end.

(** [w] occurs somewhere in [s]. *)
Definition occurs (w s : string) : Prop :=
  exists pre post, s = (pre ++ w ++ post)%string.

(** [w] occurs in [s] at a position where [\b] holds. *)
Definition occurs_at_word_boundary (w s : string) : Prop :=
  exists pre post,
    s = (pre ++ w ++ post)%string /\
    word_boundary (last_char None pre) (w ++ post) = true.

(** Every note of the table links at least one verse. *)
Definition notes_linked (ns : dict ScofieldNote) : Prop :=
  forall k n, In (k, n) ns -> linked_verses n <> [].

(** The reference column of a row, as [_parse_notes_tsv] reads it. *)
Definition row_reference (parts : list string) : string :=
  strip (nth 0 parts "").

(** Generated note ids and canonical verse ids. *)
Definition is_note_id (s : string) : Prop :=
  exists n, s = format_note_id n.

(** A non-empty string of decimal digits; a word of at least two letters. *)
Definition is_number (s : string) : bool :=
  negb (is_empty s) && all_chars is_digit s.
Definition is_book_word (s : string) : bool :=
  (2 <=? String.length s) && all_chars is_letter s.

Definition is_verse_id (s : string) : Prop :=
  exists book_abbrev ch verse_num,
    In book_abbrev (dict_keys BIBLE_BOOKS) /\
    is_number ch = true /\
    s = format_verse_id book_abbrev ch verse_num.

Definition has_dot (s : string) : bool :=
  existsb (Ascii.eqb ".") (list_ascii_of_string s).

(** What the extractor promises of an edge. *)
Definition note_to_verse_edge (x : CrossReference) : Prop :=
  is_note_id (source_id x) /\ is_verse_id (target_id x) /\
  ref_type x = "explanation" /\ confidence x = 0.8%Q.

(** The stored score is the saturating score of the entry's own counts. *)
Definition confidence_matches (t : ThematicIndex) : Prop :=
  confidence_score t
  = theme_confidence (length (theme_note_ids t)) (length (verse_ids t)).

(** Keys are unique and each entry is stored under its own [theme_id]. *)
Definition theme_index_wf (idx : dict ThematicIndex) : Prop :=
  NoDup (dict_keys idx) /\ forall k t, In (k, t) idx -> theme_id t = k.

(** A lists B as a sub-theme exactly when B lists A as a parent. *)
Definition links_symmetric (idx : dict ThematicIndex) : Prop :=
  forall ka A kb B,
    In (ka, A) idx -> In (kb, B) idx ->
    (In (theme_id B) (sub_themes A) <-> In (theme_id A) (parent_themes B)).

(** Well-formedness and symmetry stated by position, the form in which
    the in-place updates of the hierarchy pass preserve them. *)
Definition theme_index_inv (idx : dict ThematicIndex) : Prop :=
  NoDup (dict_keys idx) /\
  (forall i k t, nth_error idx i = Some (k, t) -> theme_id t = k) /\
  (forall a b ka A kb B,
      nth_error idx a = Some (ka, A) -> nth_error idx b = Some (kb, B) ->
      (In kb (sub_themes A) <-> In ka (parent_themes B))).

(** No entry has a hierarchy link yet. *)
Definition links_empty (idx : dict ThematicIndex) : Prop :=
  forall k t, In (k, t) idx -> sub_themes t = [] /\ parent_themes t = [].

(** The book under which the plan generator files a verse id: the [book]
    field of the verse stored under that id, if there is one. *)
Definition stored_book (vs : dict BibleVerse) (verse_id : string)
  : option string :=
  option_map book (dict_get verse_id vs).

(** The book a verse id names: the text before its first dot. *)
Definition id_book (verse_id : string) : option string :=
  Some (hd EmptyString (split_char "." verse_id)).

(** The ids of [ids] filed under book [b], and the books in use. *)
Definition filed_under (book_of : string -> option string) (b : string)
           (verse_id : string) : bool :=
  match book_of verse_id with
  | Some b' => String.eqb b' b
  | None => false
  end.

Definition ids_of_book (book_of : string -> option string) (b : string)
           (ids : list string) : list string :=
  filter (filed_under book_of b) ids.

Definition books_of (book_of : string -> option string) (ids : list string)
  : list string :=
  nodup string_dec
        (flat_map (fun verse_id => match book_of verse_id with
                                   | Some b => [b]
                                   | None => []
                                   end) ids).

(** The number of verses left when each book contributes at most [cap]. *)
Definition capped_count (book_of : string -> option string) (cap : nat)
           (ids : list string) : nat :=
  list_sum (map (fun b => Nat.min cap (length (ids_of_book book_of b ids)))
                (books_of book_of ids)).

(** The plan generator's output as the specification words it: day sizes
    bounded by 10 and a total equal to the book-capped count of all the
    verse ids of the plan's theme. *)
Definition plans_cover_theme_verses (st : parser) : Prop :=
  forall k p kt t,
    In (k, p) (reading_plans (generate_reading_plans st)) ->
    In (kt, t) (thematic_index st) -> name t = theme p ->
    Forall (fun day => length day <= 10) (days p) /\
    total_verses p = capped_count id_book 20 (verse_ids t).

(* ====================================================================== *)
(** * Scenario data                                                        *)
(* ====================================================================== *)

(** A line of a TSV file from its columns. *)
Definition tsv_line (columns : list string) : string :=
  String.concat (String tab EmptyString) columns.

Definition genesis_1_1 : BibleVerse :=
  {| book := "GEN"; chapter := 1; verse := 1;
     text := "In the beginning God created the heaven and the earth.";
     note_ids := []; keywords := ["God"] |}.

(** A fresh parser whose verse store holds Genesis 1:1. *)
Definition scenario_store : parser :=
  {| verses := [("GEN.1.1", genesis_1_1)]; notes := []; cross_refs := [];
     thematic_index := []; reading_plans := []; note_counter := 1;
     theme_counter := 1; plan_counter := 1 |}.

Definition scenario_note_text : string :=
  "The first creative act ... See John 1:1-3".

(** The note row of the scenario, with a category column. *)
Definition scenario_line : string :=
  tsv_line ["Genesis 1:1"; scenario_note_text; "Creation"].

(** The same row with the reference and the text only. *)
Definition scenario_line_two_columns : string :=
  tsv_line ["Genesis 1:1"; scenario_note_text].

Definition scenario_result : parser :=
  _parse_notes_tsv [scenario_line] scenario_store.

(** A study run: eleven notes on the same two verses, of which only
    Genesis 1:1 is in the verse store; the thematic index built from them,
    with [list(set(xs))] listing first occurrences last-to-first as
    [nodup] does; and the reading plans generated from that index. *)
Definition study_line : string :=
  tsv_line ["Genesis 1:1; John 3:16";
            "Salvation is by justification; the dispensation of law vs. grace ends";
            "Doctrine"].

Definition study_notes : parser :=
  _parse_notes_tsv (repeat study_line 11) scenario_store.

Definition study_index : parser :=
  build_thematic_network (nodup string_dec) study_notes.

Definition study_plans : parser := generate_reading_plans study_index.

(* ====================================================================== *)
(** * Auxiliary notions for the further properties                         *)
(* ====================================================================== *)


(** The number of occurrences of a character. *)
Fixpoint count_char (c : ascii) (s : string) : nat :=
  match s with
  | EmptyString => 0
  | String d t => (if Ascii.eqb d c then 1 else 0) + count_char c t
  end.

(** A parser that has read its verses and nothing else: the store holds
    [vs], every other table is empty and the counters are at 1. *)
Definition parser_with_verses (vs : dict BibleVerse) : parser :=
  {| verses := vs; notes := []; cross_refs := []; thematic_index := [];
     reading_plans := []; note_counter := 1; theme_counter := 1;
     plan_counter := 1 |}.

(** No verse of the store carries a back-reference yet. *)
Definition no_back_references (vs : dict BibleVerse) : Prop :=
  forall id v, In (id, v) vs -> note_ids v = [].

(** Every character class of a pattern lies within [P]. *)
Fixpoint classes_within (P : ascii -> bool) (r : regex) : Prop :=
  match r with
  | Chr p | Plus p => forall c, p c = true -> P c = true
  | Seq r1 r2 | Alt r1 r2 => classes_within P r1 /\ classes_within P r2
  | Opt r1 | Group _ r1 => classes_within P r1
  end.

(** The characters group 1 of [cross_ref_pattern] can capture: letters,
    whitespace, digits, the dot and the colon. *)
Definition citation_char (c : ascii) : bool :=
  is_letter c || is_space c || is_digit c ||
  Ascii.eqb c "." || Ascii.eqb c ":".

(** The group-1 text [findall] reports for a success. *)
Definition group1_text (x : success) : string :=
  match group 1 (groups x) with
  | Some v => v
  | None => EmptyString
  end.

(** A grouping with 25 verses of one book and one of another. *)
Definition sample_by_book : dict (list string) :=
  [ ("GEN", map (format_verse_id "GEN" "1") (seq 1 25));
    ("EXO", ["EXO.1.1"]) ].

(** The ids of the notes tagged [th], in table order, each as many times
    as the note carries the tag. *)
Definition notes_citing (th : string) (ns : dict ScofieldNote) : list string :=
  flat_map (fun kv =>
              repeat (fst kv)
                     (count_occ string_dec (theme_tags (snd kv)) th))
           ns.

(** The name and the note list of each entry of the index, in order. *)
Definition theme_view (idx : dict ThematicIndex)
  : list (string * list string) :=
  map (fun kv => (name (snd kv), theme_note_ids (snd kv))) idx.

(** Extending what a [defaultdict(list)] holds under a key. *)
Definition extended (o : option (list string)) (l : list string)
  : option (list string) :=
  match o with
  | Some l0 => Some (l0 ++ l)
  | None => match l with [] => None | _ :: _ => Some l end
  end.

(* ====================================================================== *)
(** * Properties                                                           *)
(* ====================================================================== *)

Unset Implicit Arguments.

(** ** Sanity checks of the embedding on concrete inputs *)

Example parse_single : _parse_verse_reference "Gen 1:1" = ["GEN.1.1"].
Proof. vm_compute. reflexivity. Qed.
Example parse_numbered_book :
  _parse_verse_reference "1 John 3:8; cf. Rom. 5:12-14, Psalm 23:1"
  = ["1JO.3.8"; "PSA.23.1"].
Proof. vm_compute. reflexivity. Qed.
Example parse_keeps_chapter_text :
  _parse_verse_reference "romans 05:012-14"
  = ["ROM.05.12"; "ROM.05.13"; "ROM.05.14"].
Proof. vm_compute. reflexivity. Qed.
Example parse_descending_range : _parse_verse_reference "John 3:16-2" = [].
Proof. vm_compute. reflexivity. Qed.

(** ** Reference parser *)

Lemma parse_reference_app (pre post : list string) :
  flat_map parse_fragment (pre ++ post)
  = flat_map parse_fragment pre ++ flat_map parse_fragment post.
Proof. apply flat_map_app. Qed.

Lemma parse_fragment_range (frag book_name ch sv ev ab : string) :
  reference_groups frag = Some (book_name, ch, sv, Some ev) ->
  _book_name_to_abbrev book_name = Some ab ->
  parse_fragment frag
  = map (format_verse_id ab ch)
        (seq (int_of_digits sv) (int_of_digits ev + 1 - int_of_digits sv)).
Proof.
  intros Hg Hb. unfold parse_fragment. rewrite Hg, Hb. reflexivity.
Qed.

Lemma parse_fragment_single (frag book_name ch sv ab : string) :
  reference_groups frag = Some (book_name, ch, sv, None) ->
  _book_name_to_abbrev book_name = Some ab ->
  parse_fragment frag = [format_verse_id ab ch (int_of_digits sv)].
Proof.
  intros Hg Hb. unfold parse_fragment. rewrite Hg, Hb. unfold py_range.
  replace (int_of_digits sv + 1 - int_of_digits sv) with 1 by lia.
  reflexivity.
Qed.

Lemma parse_fragment_unresolved (frag : string) :
  match reference_groups frag with
  | None => True
  | Some (book_name, _, _, _) => _book_name_to_abbrev book_name = None
  end ->
  parse_fragment frag = [].
Proof.
  unfold parse_fragment.
  destruct (reference_groups frag) as [[[[b c] s] e]|]; [|reflexivity].
  intros ->. reflexivity.
Qed.

(** ** Theme tagging *)

Lemma startswith_app (w post : string) : startswith w (w ++ post) = true.
Proof.
  induction w as [|c w IH]; simpl; [reflexivity|].
  rewrite Ascii.eqb_refl. exact IH.
Qed.

Lemma startswith_split (w s : string) :
  startswith w s = true -> exists post, s = (w ++ post)%string.
Proof.
  revert s. induction w as [|c w IH]; intros s H.
  - exists s. reflexivity.
  - destruct s as [|d s]; simpl in H; [discriminate|].
    apply andb_true_iff in H. destruct H as [Hc Hw].
    apply Ascii.eqb_eq in Hc. subst d.
    destruct (IH _ Hw) as [post ->]. exists post. reflexivity.
Qed.

Lemma contains_occurs (w s : string) : contains w s = true <-> occurs w s.
Proof.
  split.
  - induction s as [|c s IH]; simpl; intros H.
    + rewrite orb_false_r in H. apply startswith_split in H.
      destruct H as [post ->]. exists EmptyString, post. reflexivity.
    + apply orb_true_iff in H. destruct H as [H|H].
      * apply startswith_split in H. destruct H as [post ->].
        exists EmptyString, post. reflexivity.
      * destruct (IH H) as (pre & post & ->).
        exists (String c pre), post. reflexivity.
  - intros (pre & post & ->). induction pre as [|c pre IH].
    + simpl append. destruct (w ++ post)%string eqn:E; simpl;
        rewrite <- E, startswith_app; reflexivity.
    + simpl. rewrite IH. apply orb_true_r.
Qed.

Lemma search_word_start_here (prev : option ascii) (w s : string) :
  word_boundary prev s = true -> startswith w s = true ->
  search_word_start_from prev w s = true.
Proof. intros Hb Hs. destruct s; simpl; rewrite Hb, Hs; reflexivity. Qed.

Lemma search_word_start_from_occurs (w s : string) (prev : option ascii) :
  search_word_start_from prev w s = true <->
  exists pre post,
    s = (pre ++ w ++ post)%string /\
    word_boundary (last_char prev pre) (w ++ post) = true.
Proof.
  split.
  - revert prev. induction s as [|c s IH]; intros prev H; simpl in H.
    + rewrite orb_false_r in H. apply andb_true_iff in H.
      destruct H as [Hb Hs]. apply startswith_split in Hs.
      destruct Hs as [post E]. exists EmptyString, post.
      split; [exact E|]. simpl. rewrite <- E. exact Hb.
    + apply orb_true_iff in H. destruct H as [H|H].
      * apply andb_true_iff in H. destruct H as [Hb Hs].
        apply startswith_split in Hs. destruct Hs as [post E].
        exists EmptyString, post. split; [exact E|].
        simpl last_char. rewrite <- E. exact Hb.
      * destruct (IH _ H) as (pre & post & -> & Hb).
        exists (String c pre), post. split; [reflexivity|exact Hb].
  - intros (pre & post & -> & Hb). revert prev Hb.
    induction pre as [|c pre IH]; intros prev Hb.
    + simpl in Hb. simpl append.
      apply search_word_start_here; [exact Hb | apply startswith_app].
    + simpl. rewrite (IH (Some c) Hb). apply orb_true_r.
Qed.

Lemma search_word_start_occurs (w s : string) :
  search_word_start w s = true <-> occurs_at_word_boundary w s.
Proof. apply search_word_start_from_occurs. Qed.

Lemma theme_tag_iff (note_text th : string) :
  In th (_extract_themes_from_note note_text) <->
  In th SCOFIELD_THEMES /\
  (occurs (lower th) (lower note_text) \/
   occurs_at_word_boundary (drop_last (lower th)) (lower note_text)).
Proof.
  unfold _extract_themes_from_note. rewrite filter_In.
  unfold theme_matches. rewrite orb_true_iff.
  rewrite contains_occurs, search_word_start_occurs. reflexivity.
Qed.

(** ** Dictionaries *)

Section DictFacts.
Variable V : Type.
Implicit Types (d : dict V) (k : string) (v : V).

Lemma dict_get_set_same k v d : dict_get k (dict_set k v d) = Some v.
Proof.
  induction d as [|[k' v'] d IH]; simpl.
  - rewrite String.eqb_refl. reflexivity.
  - destruct (String.eqb k' k) eqn:E; simpl; rewrite E; [reflexivity|exact IH].
Qed.

Lemma In_dict_set k v d k' v' :
  In (k', v') (dict_set k v d) -> (k' = k /\ v' = v) \/ In (k', v') d.
Proof.
  induction d as [|[k0 v0] d IH]; simpl.
  - intros [H|[]]. inversion H. left. split; reflexivity.
  - destruct (String.eqb k0 k) eqn:E; simpl.
    + apply String.eqb_eq in E. subst k0.
      intros [H|H]; [inversion H; left; split; reflexivity | right; right; exact H].
    + intros [H|H]; [right; left; exact H|].
      destruct (IH H) as [H'|H']; [left; exact H' | right; right; exact H'].
Qed.

Lemma dict_get_In k v d : dict_get k d = Some v -> In (k, v) d.
Proof.
  induction d as [|[k0 v0] d IH]; simpl; [discriminate|].
  destruct (String.eqb k0 k) eqn:E.
  - apply String.eqb_eq in E. subst k0. intros H. inversion H. left. reflexivity.
  - intros H. right. apply IH. exact H.
Qed.

Lemma dict_keys_update k (f : V -> V) d :
  dict_keys (dict_update k f d) = dict_keys d.
Proof.
  induction d as [|[k0 v0] d IH]; simpl; [reflexivity|].
  destruct (String.eqb k0 k); simpl; [reflexivity|].
  f_equal. exact IH.
Qed.

Lemma dict_get_update k (f : V -> V) d k' :
  dict_get k' (dict_update k f d)
  = if String.eqb k k' then option_map f (dict_get k' d) else dict_get k' d.
Proof.
  induction d as [|[k0 v0] d IH]; simpl.
  - destruct (String.eqb k k'); reflexivity.
  - destruct (String.eqb k0 k) eqn:E0; simpl.
    + apply String.eqb_eq in E0. subst k0.
      destruct (String.eqb k k'); reflexivity.
    + destruct (String.eqb k0 k') eqn:E1.
      * destruct (String.eqb k k') eqn:E2; [|reflexivity].
        apply String.eqb_eq in E1, E2. subst. rewrite String.eqb_refl in E0.
        discriminate.
      * exact IH.
Qed.

Lemma dict_get_keys k d : dict_get k d = None <-> ~ In k (dict_keys d).
Proof.
  induction d as [|[k0 v0] d IH]; simpl; [tauto|].
  destruct (String.eqb k0 k) eqn:E.
  - apply String.eqb_eq in E. split; [discriminate | tauto].
  - apply String.eqb_neq in E. rewrite IH. tauto.
Qed.

End DictFacts.

(** ** Note builder *)

Lemma link_note_to_verses_keys note_id verse_refs vs :
  dict_keys (link_note_to_verses note_id verse_refs vs) = dict_keys vs.
Proof.
  unfold link_note_to_verses. revert vs.
  induction verse_refs as [|r refs IH]; intros vs; simpl; [reflexivity|].
  rewrite IH. destruct (dict_mem r vs); [apply dict_keys_update|reflexivity].
Qed.

Lemma extend_note_ids_app l1 l2 v :
  extend_note_ids l2 (extend_note_ids l1 v) = extend_note_ids (l1 ++ l2) v.
Proof. unfold extend_note_ids. simpl. rewrite app_assoc. reflexivity. Qed.

Lemma extend_note_ids_nil v : extend_note_ids [] v = v.
Proof. destruct v. unfold extend_note_ids. simpl. rewrite app_nil_r. reflexivity. Qed.

(** The verse stored under [id] receives the note id once per occurrence of
    [id] among the resolved references; nothing else changes. *)
Lemma link_note_to_verses_get note_id verse_refs vs id :
  dict_get id (link_note_to_verses note_id verse_refs vs)
  = option_map
      (extend_note_ids (repeat note_id (count_occ string_dec verse_refs id)))
      (dict_get id vs).
Proof.
  unfold link_note_to_verses. revert vs.
  induction verse_refs as [|r refs IH]; intros vs.
  - simpl. destruct (dict_get id vs); simpl; [rewrite extend_note_ids_nil|];
      reflexivity.
  - simpl fold_left. rewrite IH. clear IH.
    simpl count_occ. unfold dict_mem.
    destruct (string_dec r id) as [->|Hne].
    + destruct (dict_get id vs) as [v|] eqn:G.
      * rewrite dict_get_update, String.eqb_refl, G. simpl.
        rewrite extend_note_ids_app. reflexivity.
      * rewrite G. reflexivity.
    + destruct (dict_get r vs); [|reflexivity].
      rewrite dict_get_update.
      apply String.eqb_neq in Hne. rewrite Hne. reflexivity.
Qed.

(** The two outcomes of one iteration of the loop. *)
Lemma parse_note_line_cases st line :
  parse_note_line st line = st \/
  exists parts,
    note_row line = Some parts /\
    _parse_verse_reference (row_reference parts) <> [] /\
    let note_id := format_note_id (note_counter st) in
    let note_text := strip (nth 1 parts "") in
    let verse_refs := _parse_verse_reference (row_reference parts) in
    exists n,
      linked_verses n = verse_refs /\
      parse_note_line st line =
      {| verses := link_note_to_verses note_id verse_refs (verses st);
         notes := dict_set note_id n (notes st);
         cross_refs := cross_refs st ++ extracted_cross_refs note_id note_text;
         thematic_index := thematic_index st;
         reading_plans := reading_plans st;
         note_counter := note_counter st + 1;
         theme_counter := theme_counter st;
         plan_counter := plan_counter st |}.
Proof.
  unfold parse_note_line, row_reference.
  destruct (note_row line) as [parts|]; [|left; reflexivity].
  destruct (_parse_verse_reference (strip (nth 0 parts ""))) as [|r refs] eqn:E;
    [left; reflexivity|].
  right. exists parts. rewrite E.
  split; [reflexivity|]. split; [discriminate|].
  eexists. split; [|reflexivity]. reflexivity.
Qed.

Lemma parse_note_line_keeps_links st line :
  notes_linked (notes st) -> notes_linked (notes (parse_note_line st line)).
Proof.
  intros Hinv.
  destruct (parse_note_line_cases st line) as [->|(parts & _ & Hne & n & Hl & ->)];
    [exact Hinv|].
  simpl. intros k n' Hin.
  apply In_dict_set in Hin. destruct Hin as [[_ ->]|Hin].
  - rewrite Hl. exact Hne.
  - exact (Hinv _ _ Hin).
Qed.

(** ** The matcher on inputs of a known shape *)

Lemma plus_class_head (p : ascii -> bool) (m rest : string) :
  m <> EmptyString -> all_chars p m = true ->
  match rest with String c _ => p c = false | EmptyString => True end ->
  exists tl, plus_class p (m ++ rest) = (m, rest) :: tl.
Proof.
  intros Hne Hall Hstop. induction m as [|c m IH]; [congruence|].
  unfold all_chars in Hall. simpl in Hall.
  apply andb_true_iff in Hall. destruct Hall as [Hc Hm].
  simpl. rewrite Hc.
  destruct m as [|d m].
  - simpl. assert (E : plus_class p rest = []).
    { destruct rest as [|r rest]; simpl; [reflexivity|]. rewrite Hstop. reflexivity. }
    rewrite E. simpl. eexists. reflexivity.
  - destruct IH as [tl E]; [discriminate | exact Hm |].
    rewrite E. simpl. eexists. reflexivity.
Qed.

Lemma first_plus (p : ascii -> bool) cs (m rest : string) :
  m <> EmptyString -> all_chars p m = true ->
  match rest with String c _ => p c = false | EmptyString => True end ->
  first_success (Plus p) cs (m ++ rest) = Some (Success m cs rest).
Proof.
  intros Hne Hall Hstop.
  destruct (plus_class_head p m rest Hne Hall Hstop) as [tl E].
  unfold first_success. simpl. rewrite E. reflexivity.
Qed.

Lemma first_seq r1 r2 cs s a b :
  first_success r1 cs s = Some a ->
  first_success r2 (groups a) (remaining a) = Some b ->
  first_success (Seq r1 r2) cs s
  = Some (Success (matched a ++ matched b) (groups b) (remaining b)).
Proof.
  unfold first_success. simpl.
  destruct (run r1 cs s) as [|a' t1]; [discriminate|].
  intros H1. inversion H1. subst a'. simpl.
  destruct (run r2 (groups a) (remaining a)) as [|b' t2]; [discriminate|].
  intros H2. inversion H2. subst b'. reflexivity.
Qed.

Lemma first_group n r cs s a :
  first_success r cs s = Some a ->
  first_success (Group n r) cs s
  = Some (Success (matched a) ((n, matched a) :: groups a) (remaining a)).
Proof.
  unfold first_success. simpl.
  destruct (run r cs s) as [|a' t]; [discriminate|].
  intros H. inversion H. reflexivity.
Qed.

Lemma first_opt_take r cs s a :
  first_success r cs s = Some a -> first_success (Opt r) cs s = Some a.
Proof.
  unfold first_success. simpl.
  destruct (run r cs s) as [|a' t]; [discriminate|]. intros H. exact H.
Qed.

Lemma first_opt_skip r cs s :
  first_success r cs s = None ->
  first_success (Opt r) cs s = Some (Success EmptyString cs s).
Proof.
  unfold first_success. simpl.
  destruct (run r cs s) as [|a' t]; [reflexivity|discriminate].
Qed.

Lemma first_chr_hit (p : ascii -> bool) cs c t :
  p c = true ->
  first_success (Chr p) cs (String c t)
  = Some (Success (String c EmptyString) cs t).
Proof. intros H. unfold first_success. simpl. rewrite H. reflexivity. Qed.

Lemma first_chr_miss (p : ascii -> bool) cs s :
  match s with String c _ => p c = false | EmptyString => True end ->
  first_success (Chr p) cs s = None.
Proof.
  unfold first_success. destruct s; simpl; [reflexivity|].
  intros ->. reflexivity.
Qed.

Lemma first_seq_miss r1 r2 cs s :
  first_success r1 cs s = None -> first_success (Seq r1 r2) cs s = None.
Proof.
  unfold first_success. simpl.
  destruct (run r1 cs s) as [|a t]; [reflexivity|discriminate].
Qed.

Lemma append_assoc (a b c : string) :
  ((a ++ b) ++ c)%string = (a ++ (b ++ c))%string.
Proof. induction a; simpl; [reflexivity|]. rewrite IHa. reflexivity. Qed.

Lemma append_nil_r (a : string) : (a ++ "")%string = a.
Proof. induction a; simpl; [reflexivity|]. rewrite IHa. reflexivity. Qed.

Lemma letter_code c : is_letter c = true -> 65 <= code c.
Proof.
  unfold is_letter, is_upper, is_lower, in_range. intros H.
  apply orb_true_iff in H. destruct H as [H|H];
    apply andb_true_iff in H; destruct H as [H _]; apply Nat.leb_le in H; lia.
Qed.

Lemma digit_code c : is_digit c = true -> 48 <= code c <= 57.
Proof.
  unfold is_digit, in_range. intros H. apply andb_true_iff in H.
  destruct H as [H1 H2]. apply Nat.leb_le in H1, H2. lia.
Qed.

Lemma in_range_false lo hi c :
  code c < lo \/ hi < code c -> in_range lo hi c = false.
Proof.
  intros H. unfold in_range. apply andb_false_iff.
  destruct H as [H|H]; [left|right]; apply Nat.leb_gt; exact H.
Qed.

Lemma letter_not_digit c : is_letter c = true -> is_digit c = false.
Proof. intros H. apply letter_code in H. apply in_range_false. lia. Qed.

Lemma letter_not_space c : is_letter c = true -> is_space c = false.
Proof.
  intros H. apply letter_code in H. unfold is_space.
  rewrite !in_range_false by lia. reflexivity.
Qed.

Lemma letter_not_ordinal c : is_letter c = true -> in_range 49 51 c = false.
Proof. intros H. apply letter_code in H. apply in_range_false. lia. Qed.

Lemma digit_not_space c : is_digit c = true -> is_space c = false.
Proof.
  intros H. apply digit_code in H. unfold is_space.
  rewrite !in_range_false by lia. reflexivity.
Qed.

Lemma is_number_inv s :
  is_number s = true -> s <> EmptyString /\ all_chars is_digit s = true.
Proof.
  unfold is_number. intros H. apply andb_true_iff in H. destruct H as [H1 H2].
  split; [|exact H2]. intros ->. discriminate.
Qed.

Lemma is_number_head s :
  is_number s = true ->
  exists d t, s = String d t /\ is_digit d = true.
Proof.
  intros H. apply is_number_inv in H. destruct H as [Hne Hall].
  destruct s as [|d t]; [congruence|]. exists d, t. split; [reflexivity|].
  unfold all_chars in Hall. simpl in Hall. apply andb_true_iff in Hall. tauto.
Qed.

(** The book token takes a whole word of letters when a non-letter
    follows. *)
Lemma first_book_token cs b rest :
  is_book_word b = true ->
  match rest with String c _ => is_letter c = false | EmptyString => True end ->
  first_success book_token cs (b ++ rest) = Some (Success b cs rest).
Proof.
  intros Hb Hstop. unfold is_book_word in Hb.
  apply andb_true_iff in Hb. destruct Hb as [Hlen Hall].
  destruct b as [|c0 [|c1 m]]; try discriminate.
  unfold all_chars in Hall. simpl in Hall.
  apply andb_true_iff in Hall. destruct Hall as [H0 Hm].
  unfold book_token. simpl append.
  set (inp := String c0 (String c1 (m ++ rest))).
  rewrite (first_seq _ _ _ _ (Success EmptyString cs inp)
                     (Success (String c0 (String c1 m)) cs rest));
    [reflexivity | |].
  { apply first_opt_skip, first_chr_miss. apply letter_not_ordinal, H0. }
  simpl groups. simpl remaining.
  rewrite (first_seq _ _ _ _ (Success EmptyString cs inp)
                     (Success (String c0 (String c1 m)) cs rest));
    [reflexivity | |].
  { apply first_opt_skip, first_chr_miss. apply letter_not_space, H0. }
  simpl groups. simpl remaining.
  rewrite (first_seq _ _ _ _
                     (Success (String c0 EmptyString) cs (String c1 (m ++ rest)))
                     (Success (String c1 m) cs rest));
    [reflexivity | |].
  { apply first_chr_hit, H0. }
  simpl groups. simpl remaining.
  apply (first_plus is_letter cs (String c1 m) rest);
    [discriminate | exact Hm | exact Hstop].
Qed.

Lemma first_number_group n cs d rest :
  is_number d = true ->
  match rest with String c _ => is_digit c = false | EmptyString => True end ->
  first_success (Group n (Plus is_digit)) cs (d ++ rest)
  = Some (Success d ((n, d) :: cs) rest).
Proof.
  intros Hd Hstop. apply is_number_inv in Hd. destruct Hd as [Hne Hall].
  rewrite (first_group n _ cs _ (Success d cs rest)); [reflexivity|].
  apply first_plus; assumption.
Qed.

(** The reference pattern on "Book C:S" followed by [rest], whatever
    pattern [k] comes after the start verse. *)
Lemma first_reference_then k b c s rest x :
  is_book_word b = true -> is_number c = true -> is_number s = true ->
  match rest with String y _ => is_digit y = false | EmptyString => True end ->
  first_success k [(3, s); (2, c); (1, b)] rest = Some x ->
  first_success
    (Group 1 book_token ;; Opt (chr_eq ".") ;; Plus is_space ;;
     Group 2 (Plus is_digit) ;; chr_eq ":" ;; Group 3 (Plus is_digit) ;; k)%re
    [] (b ++ " " ++ c ++ ":" ++ s ++ rest)
  = Some (Success (b ++ " " ++ c ++ ":" ++ s ++ matched x)
                  (groups x) (remaining x)).
Proof.
  intros Hb Hc Hs Hstop Hk.
  destruct (is_number_head c Hc) as (c0 & c' & Ec & Hc0).
  set (r1 := (" " ++ c ++ ":" ++ s ++ rest)%string).
  set (gs := groups x). set (rm := remaining x).
  rewrite (first_seq _ _ _ _ (Success b [(1, b)] r1)
                     (Success (" " ++ c ++ ":" ++ s ++ matched x) gs rm));
    [reflexivity | |].
  { rewrite (first_group 1 _ _ _ (Success b [] r1)); [reflexivity|].
    apply first_book_token; [exact Hb | reflexivity]. }
  simpl groups. simpl remaining.
  rewrite (first_seq _ _ _ _ (Success EmptyString [(1, b)] r1)
                     (Success (" " ++ c ++ ":" ++ s ++ matched x) gs rm));
    [reflexivity | |].
  { apply first_opt_skip, first_chr_miss. reflexivity. }
  simpl groups. simpl remaining.
  rewrite (first_seq _ _ _ _ (Success " " [(1, b)] (c ++ ":" ++ s ++ rest))
                     (Success (c ++ ":" ++ s ++ matched x) gs rm));
    [reflexivity | |].
  { apply (first_plus is_space [(1, b)] " " (c ++ ":" ++ s ++ rest));
      [discriminate | reflexivity |].
    rewrite Ec. simpl. apply digit_not_space, Hc0. }
  simpl groups. simpl remaining.
  rewrite (first_seq _ _ _ _ (Success c [(2, c); (1, b)] (":" ++ s ++ rest))
                     (Success (":" ++ s ++ matched x) gs rm));
    [reflexivity | |].
  { apply first_number_group; [exact Hc | reflexivity]. }
  simpl groups. simpl remaining.
  rewrite (first_seq _ _ _ _ (Success ":" [(2, c); (1, b)] (s ++ rest))
                     (Success (s ++ matched x) gs rm));
    [reflexivity | |].
  { apply first_chr_hit. reflexivity. }
  simpl groups. simpl remaining.
  rewrite (first_seq _ _ _ _ (Success s [(3, s); (2, c); (1, b)] rest) x);
    [reflexivity | |].
  { apply first_number_group; [exact Hs | exact Hstop]. }
  exact Hk.
Qed.

(** "Book C:S" matches with the three groups and no end verse. *)
Lemma reference_groups_single b c s :
  is_book_word b = true -> is_number c = true -> is_number s = true ->
  reference_groups (b ++ " " ++ c ++ ":" ++ s) = Some (b, c, s, None).
Proof.
  intros Hb Hc Hs. unfold reference_groups, re_match, reference_pattern.
  rewrite <- (append_nil_r s) at 1.
  rewrite (first_reference_then _ b c s EmptyString
             (Success EmptyString [(3, s); (2, c); (1, b)] EmptyString)
             Hb Hc Hs I).
  - reflexivity.
  - apply first_opt_skip, first_seq_miss, first_chr_miss. exact I.
Qed.

(** "Book C:S-E" matches with the four groups. *)
Lemma reference_groups_range b c s e :
  is_book_word b = true -> is_number c = true -> is_number s = true ->
  is_number e = true ->
  reference_groups (b ++ " " ++ c ++ ":" ++ s ++ "-" ++ e)
  = Some (b, c, s, Some e).
Proof.
  intros Hb Hc Hs He. unfold reference_groups, re_match, reference_pattern.
  rewrite (first_reference_then _ b c s ("-" ++ e)
             (Success ("-" ++ e) [(4, e); (3, s); (2, c); (1, b)] EmptyString)
             Hb Hc Hs).
  - reflexivity.
  - reflexivity.
  - apply first_opt_take.
    rewrite (first_seq _ _ _ _
               (Success "-" [(3, s); (2, c); (1, b)] e)
               (Success e [(4, e); (3, s); (2, c); (1, b)] EmptyString));
      [reflexivity | apply first_chr_hit; reflexivity |].
    simpl groups. simpl remaining.
    rewrite <- (append_nil_r e) at 1.
    apply first_number_group; [exact He | exact I].
Qed.

(** ** Reference strings made of one plain fragment *)

Lemma all_chars_app p a b :
  all_chars p (a ++ b) = all_chars p a && all_chars p b.
Proof.
  unfold all_chars. induction a as [|c a IH]; simpl; [reflexivity|].
  rewrite IH. apply andb_assoc.
Qed.

Lemma all_chars_impl (p q : ascii -> bool) s :
  (forall c, p c = true -> q c = true) ->
  all_chars p s = true -> all_chars q s = true.
Proof.
  intros Hpq. unfold all_chars. induction s as [|c s IH]; simpl; [reflexivity|].
  intros H. apply andb_true_iff in H. destruct H as [Hc Hs].
  rewrite (Hpq _ Hc), (IH Hs). reflexivity.
Qed.

Lemma re_split_no_separator sep s :
  all_chars (fun c => negb (sep c)) s = true -> re_split sep s = [s].
Proof.
  unfold re_split, all_chars. induction s as [|c s IH]; simpl; [reflexivity|].
  intros H. apply andb_true_iff in H. destruct H as [Hc Hs].
  apply negb_true_iff in Hc. rewrite Hc, (IH Hs). reflexivity.
Qed.

Lemma last_char_app prev a b :
  last_char prev (a ++ b) = last_char (last_char prev a) b.
Proof. revert prev. induction a as [|c a IH]; intros prev; simpl; [reflexivity|apply IH]. Qed.

Lemma rstrip_ends_non_space c t d :
  last_char (Some c) t = Some d -> is_space d = false ->
  rstrip (String c t) = String c t /\ rstrip (String c t) <> EmptyString.
Proof.
  revert c. induction t as [|e t IH]; intros c Hl Hd.
  - simpl in Hl. inversion Hl. subst d. simpl. rewrite Hd. simpl.
    split; [reflexivity|discriminate].
  - simpl in Hl. destruct (IH e Hl Hd) as [E Hne].
    change (rstrip (String c (String e t)))
      with (if is_space c && is_empty (rstrip (String e t))
            then EmptyString else String c (rstrip (String e t))).
    rewrite E. simpl. rewrite andb_false_r.
    split; [reflexivity|discriminate].
Qed.

Lemma strip_plain c t d :
  is_space c = false -> last_char (Some c) t = Some d -> is_space d = false ->
  strip (String c t) = String c t.
Proof.
  intros Hc Hl Hd. unfold strip. simpl lstrip. rewrite Hc.
  apply (rstrip_ends_non_space c t d Hl Hd).
Qed.

Lemma last_char_number prev s :
  is_number s = true ->
  exists d, last_char prev s = Some d /\ is_digit d = true.
Proof.
  intros H. apply is_number_inv in H. destruct H as [Hne Hall].
  revert prev. induction s as [|c s IH]; intros prev; [congruence|].
  unfold all_chars in Hall. simpl in Hall.
  apply andb_true_iff in Hall. destruct Hall as [Hc Hs].
  destruct s as [|e s].
  - exists c. split; [reflexivity|exact Hc].
  - simpl. apply (IH ltac:(discriminate) Hs (Some c)).
Qed.

Lemma letter_not_separator c : is_letter c = true -> negb (is_ref_separator c) = true.
Proof.
  intros H. apply letter_code in H. unfold is_ref_separator.
  apply negb_true_iff, orb_false_iff.
  split; apply Ascii.eqb_neq; intros ->; vm_compute in H; lia.
Qed.

Lemma digit_not_separator c : is_digit c = true -> negb (is_ref_separator c) = true.
Proof.
  intros H. apply digit_code in H. unfold is_ref_separator.
  apply negb_true_iff, orb_false_iff.
  split; apply Ascii.eqb_neq; intros ->; vm_compute in H; lia.
Qed.

(** A string that starts with a book word, ends with a number and has no
    separator in between is its own single fragment. *)
Lemma ref_parts_plain b mid e :
  is_book_word b = true -> is_number e = true ->
  all_chars (fun c => negb (is_ref_separator c)) mid = true ->
  ref_parts (b ++ mid ++ e) = [(b ++ mid ++ e)%string].
Proof.
  intros Hb He Hmid. unfold ref_parts.
  assert (Hbl : all_chars is_letter b = true).
  { unfold is_book_word in Hb. apply andb_true_iff in Hb. tauto. }
  destruct (is_number_inv e He) as [_ Hel].
  rewrite re_split_no_separator.
  2:{ rewrite !all_chars_app.
      rewrite (all_chars_impl _ _ b letter_not_separator Hbl).
      rewrite (all_chars_impl _ _ e digit_not_separator Hel).
      rewrite Hmid. reflexivity. }
  simpl map.
  destruct b as [|c0 b']; [discriminate|].
  assert (H0 : is_letter c0 = true).
  { unfold all_chars in Hbl. simpl in Hbl. apply andb_true_iff in Hbl. tauto. }
  destruct (last_char_number (last_char (last_char (Some c0) b') mid) e He)
    as (d & Hl & Hd).
  simpl append.
  rewrite (strip_plain c0 (b' ++ mid ++ e) d).
  - reflexivity.
  - apply letter_not_space, H0.
  - rewrite !last_char_app. exact Hl.
  - apply digit_not_space, Hd.
Qed.

(** On "Book C:S" the parser emits the one id built from the resolved
    book, the chapter text as written and the verse number: whatever the
    chapter and the verse are. *)
Lemma parse_plain_single b c s ab :
  is_book_word b = true -> is_number c = true -> is_number s = true ->
  _book_name_to_abbrev b = Some ab ->
  _parse_verse_reference (b ++ " " ++ c ++ ":" ++ s)
  = [format_verse_id ab c (int_of_digits s)].
Proof.
  intros Hb Hc Hs Hab. unfold _parse_verse_reference.
  assert (E : (b ++ " " ++ c ++ ":" ++ s)%string
              = (b ++ (" " ++ c ++ ":") ++ s)%string).
  { simpl. rewrite append_assoc. reflexivity. }
  rewrite E, ref_parts_plain; [| exact Hb | exact Hs |].
  - cbn [flat_map]. rewrite app_nil_r, <- E.
    apply (parse_fragment_single _ b c s ab);
      [apply reference_groups_single; assumption | exact Hab].
  - destruct (is_number_inv c Hc) as [_ Hcl].
    change (" " ++ c ++ ":")%string with (" " ++ (c ++ ":"))%string.
    rewrite !all_chars_app.
    rewrite (all_chars_impl _ _ c digit_not_separator Hcl). reflexivity.
Qed.

(** On "Book C:S-E" the parser emits one id per integer from S to E. *)
Lemma parse_plain_range b c s e ab :
  is_book_word b = true -> is_number c = true -> is_number s = true ->
  is_number e = true ->
  _book_name_to_abbrev b = Some ab ->
  _parse_verse_reference (b ++ " " ++ c ++ ":" ++ s ++ "-" ++ e)
  = map (format_verse_id ab c)
        (seq (int_of_digits s) (int_of_digits e + 1 - int_of_digits s)).
Proof.
  intros Hb Hc Hs He Hab. unfold _parse_verse_reference.
  assert (E : (b ++ " " ++ c ++ ":" ++ s ++ "-" ++ e)%string
              = (b ++ (" " ++ c ++ ":" ++ s ++ "-") ++ e)%string).
  { simpl. rewrite append_assoc. simpl. rewrite append_assoc. reflexivity. }
  rewrite E, ref_parts_plain; [| exact Hb | exact He |].
  - cbn [flat_map]. rewrite app_nil_r, <- E.
    apply (parse_fragment_range _ b c s e ab);
      [apply reference_groups_range; assumption | exact Hab].
  - destruct (is_number_inv c Hc) as [_ Hcl].
    destruct (is_number_inv s Hs) as [_ Hsl].
    change (" " ++ c ++ ":" ++ s ++ "-")%string
      with (" " ++ (c ++ (":" ++ (s ++ "-"))))%string.
    rewrite !all_chars_app.
    rewrite (all_chars_impl _ _ c digit_not_separator Hcl).
    rewrite (all_chars_impl _ _ s digit_not_separator Hsl). reflexivity.
Qed.

(** ** What a match of the reference pattern captures *)

Lemma plus_class_sound p s m r :
  In (m, r) (plus_class p s) ->
  m <> EmptyString /\ all_chars p m = true /\ s = (m ++ r)%string.
Proof.
  revert m r. induction s as [|c s IH]; intros m r; simpl; [tauto|].
  destruct (p c) eqn:Hc; [|intros []].
  intros H. apply in_app_or in H. destruct H as [H|[H|[]]].
  - apply in_map_iff in H. destruct H as ([m' r'] & E & Hin).
    simpl in E. inversion E. subst m r.
    destruct (IH _ _ Hin) as (_ & Hall & ->).
    split; [discriminate|]. split; [|reflexivity].
    unfold all_chars in *. simpl. rewrite Hc, Hall. reflexivity.
  - inversion H. subst m r. split; [discriminate|].
    split; [|reflexivity]. unfold all_chars. simpl. rewrite Hc. reflexivity.
Qed.

Lemma run_group_free r cs s x :
  group_free r = true -> In x (run r cs s) -> groups x = cs.
Proof.
  revert cs s x. induction r as [p|r1 IH1 r2 IH2|r1 IH1 r2 IH2|r1 IH1|p|n r1 IH1];
    intros cs s x Hf Hin; simpl in Hf, Hin.
  - destruct s as [|c t]; [destruct Hin|].
    destruct (p c); [|destruct Hin]. destruct Hin as [<-|[]]. reflexivity.
  - apply andb_true_iff in Hf. destruct Hf as [Hf1 Hf2].
    apply in_flat_map in Hin. destruct Hin as (a & Ha & Hin).
    apply in_map_iff in Hin. destruct Hin as (b & <- & Hb). simpl.
    rewrite (IH2 _ _ _ Hf2 Hb). apply (IH1 _ _ _ Hf1 Ha).
  - apply andb_true_iff in Hf. destruct Hf as [Hf1 Hf2].
    apply in_app_or in Hin. destruct Hin as [Hin|Hin];
      [apply (IH1 _ _ _ Hf1 Hin) | apply (IH2 _ _ _ Hf2 Hin)].
  - apply in_app_or in Hin. destruct Hin as [Hin|[<-|[]]];
      [apply (IH1 _ _ _ Hf Hin) | reflexivity].
  - apply in_map_iff in Hin. destruct Hin as (mr & <- & _). reflexivity.
  - discriminate.
Qed.

Lemma run_seq_groups r1 r2 cs s x :
  In x (run (Seq r1 r2) cs s) ->
  exists a b,
    In a (run r1 cs s) /\ In b (run r2 (groups a) (remaining a)) /\
    groups x = groups b.
Proof.
  simpl. intros Hin. apply in_flat_map in Hin. destruct Hin as (a & Ha & Hin).
  apply in_map_iff in Hin. destruct Hin as (b & <- & Hb).
  exists a, b. repeat split; assumption.
Qed.

Lemma run_number_group n cs s x :
  In x (run (Group n (Plus is_digit)) cs s) ->
  exists d, is_number d = true /\ groups x = (n, d) :: cs.
Proof.
  simpl. intros Hin. apply in_map_iff in Hin. destruct Hin as (a & <- & Ha).
  apply in_map_iff in Ha. destruct Ha as ([m r] & <- & Hmr). simpl.
  destruct (plus_class_sound _ _ _ _ Hmr) as (Hne & Hall & _).
  exists m. split; [|reflexivity]. unfold is_number. rewrite Hall.
  destruct m; [congruence|reflexivity].
Qed.

Lemma first_success_In r cs s x :
  first_success r cs s = Some x -> In x (run r cs s).
Proof.
  unfold first_success. destruct (run r cs s); [discriminate|].
  intros H. inversion H. left. reflexivity.
Qed.

(** The chapter, the start verse and the end verse of a match are
    numbers. *)
Lemma reference_groups_numbers frag book_name ch sv ev :
  reference_groups frag = Some (book_name, ch, sv, ev) ->
  is_number ch = true /\ is_number sv = true /\
  match ev with Some e => is_number e = true | None => True end.
Proof.
  unfold reference_groups, re_match.
  destruct (first_success reference_pattern [] frag) as [m|] eqn:F;
    [|discriminate].
  apply first_success_In in F. unfold reference_pattern in F.
  apply run_seq_groups in F. destruct F as (a1 & b1 & Ha1 & F & ->).
  simpl in Ha1. apply in_map_iff in Ha1. destruct Ha1 as (a0 & <- & Ha0).
  apply (run_group_free book_token) in Ha0; [|reflexivity].
  simpl groups in F. simpl remaining in F. rewrite Ha0 in F.
  apply run_seq_groups in F. destruct F as (a2 & b2 & Ha2 & F & ->).
  apply run_group_free in Ha2; [|reflexivity]. rewrite Ha2 in F.
  apply run_seq_groups in F. destruct F as (a3 & b3 & Ha3 & F & ->).
  apply run_group_free in Ha3; [|reflexivity]. rewrite Ha3 in F.
  apply run_seq_groups in F. destruct F as (a4 & b4 & Ha4 & F & ->).
  apply run_number_group in Ha4. destruct Ha4 as (d2 & Hd2 & E4).
  rewrite E4 in F.
  apply run_seq_groups in F. destruct F as (a5 & b5 & Ha5 & F & ->).
  apply run_group_free in Ha5; [|reflexivity]. rewrite Ha5 in F.
  apply run_seq_groups in F. destruct F as (a6 & b6 & Ha6 & F & ->).
  apply run_number_group in Ha6. destruct Ha6 as (d3 & Hd3 & E6).
  rewrite E6 in F.
  simpl in F. apply in_app_or in F. destruct F as [F|[<-|[]]].
  - apply in_flat_map in F. destruct F as (a7 & Ha7 & F).
    apply in_map_iff in F. destruct F as (b7 & <- & Hb7).
    apply (run_group_free (chr_eq "-")) in Ha7; [|reflexivity].
    rewrite Ha7 in Hb7.
    apply (run_number_group 4) in Hb7. destruct Hb7 as (d4 & Hd4 & E7).
    simpl groups. rewrite E7. simpl.
    intros H. inversion H. subst. repeat split; assumption.
  - simpl. intros H. inversion H. subst. repeat split; assumption.
Qed.

(** ** Ids produced by the parser and the note builder *)

Lemma first_key_In test d k :
  first_key test d = Some k -> In k (dict_keys d).
Proof.
  induction d as [|[a f] d IH]; simpl; [discriminate|].
  destruct (test f).
  - intros H. inversion H. left. reflexivity.
  - intros H. right. apply IH, H.
Qed.

Lemma dict_get_value (V : Type) k (v : V) d :
  dict_get k d = Some v -> In v (dict_values d).
Proof.
  induction d as [|[a w] d IH]; simpl; [discriminate|].
  destruct (String.eqb a k).
  - intros H. inversion H. left. reflexivity.
  - intros H. right. apply IH, H.
Qed.

Lemma variations_in_registry v :
  In v (dict_values variations) -> In v (dict_keys BIBLE_BOOKS).
Proof.
  assert (H : forallb (fun v => existsb (String.eqb v) (dict_keys BIBLE_BOOKS))
                      (dict_values variations) = true)
    by (vm_compute; reflexivity).
  rewrite forallb_forall in H. intros Hin. specialize (H _ Hin).
  apply existsb_exists in H. destruct H as (k & Hk & E).
  apply String.eqb_eq in E. subst k. exact Hk.
Qed.

(** A resolved book is a key of the registry. *)
Lemma book_name_to_abbrev_in_registry book_name ab :
  _book_name_to_abbrev book_name = Some ab -> In ab (dict_keys BIBLE_BOOKS).
Proof.
  unfold _book_name_to_abbrev.
  destruct (dict_get (title (strip book_name)) variations) as [v|] eqn:V.
  - intros H. inversion H. subst v.
    apply variations_in_registry. apply (dict_get_value _ _ _ _ V).
  - destruct (first_key _ BIBLE_BOOKS) as [k|] eqn:K1.
    + intros H. inversion H. subst k. apply (first_key_In _ _ _ K1).
    + apply first_key_In.
Qed.

Lemma parse_fragment_verse_ids frag id :
  In id (parse_fragment frag) -> is_verse_id id.
Proof.
  unfold parse_fragment.
  destruct (reference_groups frag) as [[[[b ch] sv] ev]|] eqn:G; [|intros []].
  destruct (_book_name_to_abbrev b) as [ab|] eqn:B; [|intros []].
  intros Hin. apply in_map_iff in Hin. destruct Hin as (n & <- & _).
  exists ab, ch, n. split; [apply (book_name_to_abbrev_in_registry _ _ B)|].
  split; [|reflexivity].
  apply (reference_groups_numbers _ _ _ _ _ G).
Qed.

(** Every id the Reference Parser returns is a canonical verse id. *)
Lemma parse_verse_reference_verse_ids ref_str id :
  In id (_parse_verse_reference ref_str) -> is_verse_id id.
Proof.
  unfold _parse_verse_reference. intros Hin.
  apply in_flat_map in Hin. destruct Hin as (frag & _ & Hin).
  apply (parse_fragment_verse_ids _ _ Hin).
Qed.

Lemma has_dot_app a b : has_dot (a ++ b) = has_dot a || has_dot b.
Proof.
  unfold has_dot. induction a as [|c a IH]; simpl; [reflexivity|].
  rewrite IH. apply orb_assoc.
Qed.

Lemma digits_have_no_dot s : all_chars is_digit s = true -> has_dot s = false.
Proof.
  unfold all_chars, has_dot.
  induction s as [|c s IH]; cbn [list_ascii_of_string forallb existsb];
    [reflexivity|].
  intros H. apply andb_true_iff in H. destruct H as [Hc Hs].
  rewrite (IH Hs), orb_false_r. apply Ascii.eqb_neq. intros <-.
  apply digit_code in Hc. vm_compute in Hc. lia.
Qed.

Lemma string_of_uint_digits d :
  all_chars is_digit (NilEmpty.string_of_uint d) = true.
Proof. induction d; simpl; try reflexivity; exact IHd. Qed.

Lemma str_of_nat_digits n : all_chars is_digit (str_of_nat n) = true.
Proof. apply string_of_uint_digits. Qed.

Lemma repeat_zero_digits k : all_chars is_digit (repeat_char "0" k) = true.
Proof. induction k; simpl; [reflexivity|exact IHk]. Qed.

Lemma zero_pad_digits w n : all_chars is_digit (zero_pad w n) = true.
Proof.
  unfold zero_pad. rewrite all_chars_app, repeat_zero_digits, str_of_nat_digits.
  reflexivity.
Qed.

Lemma note_id_has_no_dot s : is_note_id s -> has_dot s = false.
Proof.
  intros [n ->]. unfold format_note_id.
  rewrite has_dot_app, (digits_have_no_dot _ (zero_pad_digits 4 n)).
  reflexivity.
Qed.

Lemma verse_id_has_dot s : is_verse_id s -> has_dot s = true.
Proof.
  intros (ab & ch & v & _ & _ & ->). unfold format_verse_id.
  rewrite has_dot_app. apply orb_true_iff. right. reflexivity.
Qed.

Lemma note_ids_are_not_verse_ids s : is_note_id s -> ~ is_verse_id s.
Proof.
  intros Hn Hv. apply note_id_has_no_dot in Hn. apply verse_id_has_dot in Hv.
  congruence.
Qed.

Lemma extracted_cross_refs_shape note_id note_text x :
  In x (extracted_cross_refs note_id note_text) ->
  source_id x = note_id /\ is_verse_id (target_id x) /\
  ref_type x = "explanation" /\ confidence x = 0.8%Q.
Proof.
  unfold extracted_cross_refs. intros Hin.
  apply in_flat_map in Hin. destruct Hin as (ref_str & _ & Hin).
  apply in_map_iff in Hin. destruct Hin as (target & <- & Ht).
  simpl. repeat split. apply (parse_verse_reference_verse_ids _ _ Ht).
Qed.

Lemma dict_keys_set_grows (V : Type) k (v : V) d k' :
  In k' (dict_keys d) -> In k' (dict_keys (dict_set k v d)).
Proof.
  induction d as [|[a w] d IH]; simpl; [tauto|].
  destruct (String.eqb a k); simpl; [tauto|].
  intros [H|H]; [left; exact H | right; apply IH, H].
Qed.

Lemma dict_keys_set_has (V : Type) k (v : V) d :
  In k (dict_keys (dict_set k v d)).
Proof.
  induction d as [|[a w] d IH]; simpl; [left; reflexivity|].
  destruct (String.eqb a k) eqn:E; simpl.
  - left. apply String.eqb_eq, E.
  - right. exact IH.
Qed.

(** One iteration of the Note Builder keeps the edges well formed. *)
Lemma parse_note_line_edges st line :
  (forall y, In y (cross_refs st) ->
             note_to_verse_edge y /\ In (source_id y) (dict_keys (notes st))) ->
  forall x, In x (cross_refs (parse_note_line st line)) ->
            note_to_verse_edge x /\
            In (source_id x) (dict_keys (notes (parse_note_line st line))).
Proof.
  intros Hinv x.
  destruct (parse_note_line_cases st line) as [->|(parts & _ & _ & n & _ & ->)];
    [apply Hinv|].
  simpl. intros Hin. apply in_app_or in Hin. destruct Hin as [Hin|Hin].
  - destruct (Hinv _ Hin) as [He Hk]. split; [exact He|].
    apply dict_keys_set_grows, Hk.
  - apply extracted_cross_refs_shape in Hin.
    destruct Hin as (Hs & Ht & Hr & Hc).
    split.
    + unfold note_to_verse_edge. rewrite Hs.
      split; [exists (note_counter st); reflexivity|]. tauto.
    + rewrite Hs. apply dict_keys_set_has.
Qed.

Lemma parse_notes_tsv_edges lines st :
  (forall y, In y (cross_refs st) ->
             note_to_verse_edge y /\ In (source_id y) (dict_keys (notes st))) ->
  forall x, In x (cross_refs (_parse_notes_tsv lines st)) ->
            note_to_verse_edge x /\
            In (source_id x) (dict_keys (notes (_parse_notes_tsv lines st))).
Proof.
  unfold _parse_notes_tsv. revert st.
  induction lines as [|l lines IH]; intros st Hinv; [exact Hinv|].
  simpl. apply IH. apply parse_note_line_edges, Hinv.
Qed.

(** ** Thematic index: positions and in-place updates *)

Section UpdateAt.
Variable V : Type.
Implicit Types (d : dict V) (f : V -> V).

Lemma nth_error_update_at i f d j :
  nth_error (update_at i f d) j
  = if Nat.eqb i j
    then option_map (fun kv => (fst kv, f (snd kv))) (nth_error d j)
    else nth_error d j.
Proof.
  revert i j. induction d as [|[k v] d IH]; intros i j.
  - simpl. destruct j; destruct (Nat.eqb i _); reflexivity.
  - destruct i as [|i]; destruct j as [|j]; simpl; try reflexivity.
    apply IH.
Qed.

Lemma dict_keys_update_at i f d : dict_keys (update_at i f d) = dict_keys d.
Proof.
  revert i. induction d as [|[k v] d IH]; intros i; [destruct i; reflexivity|].
  destruct i as [|i]; simpl; [reflexivity|]. f_equal. apply IH.
Qed.

Lemma length_update_at i f d : length (update_at i f d) = length d.
Proof.
  revert i. induction d as [|[k v] d IH]; intros i; [destruct i; reflexivity|].
  destruct i as [|i]; simpl; [reflexivity|]. f_equal. apply IH.
Qed.

Lemma In_update_at i f d k v :
  In (k, v) (update_at i f d) ->
  exists v0, In (k, v0) d /\ (v = v0 \/ v = f v0).
Proof.
  intros Hin. apply In_nth_error in Hin. destruct Hin as [j Hj].
  rewrite nth_error_update_at in Hj.
  destruct (Nat.eqb i j).
  - destruct (nth_error d j) as [[k0 v0]|] eqn:E; [|discriminate].
    simpl in Hj. inversion Hj. subst. exists v0.
    split; [apply (nth_error_In _ _ E) | right; reflexivity].
  - exists v. split; [apply (nth_error_In _ _ Hj) | left; reflexivity].
Qed.

Lemma unique_key_position d a b k x y :
  NoDup (dict_keys d) ->
  nth_error d a = Some (k, x) -> nth_error d b = Some (k, y) -> a = b.
Proof.
  intros Hnd Ha Hb. unfold dict_keys in Hnd.
  rewrite NoDup_nth_error in Hnd. apply Hnd.
  - rewrite length_map. apply nth_error_Some. rewrite Ha. discriminate.
  - rewrite !nth_error_map, Ha, Hb. reflexivity.
Qed.

Lemma NoDup_dict_set k v d :
  NoDup (dict_keys d) -> NoDup (dict_keys (dict_set k v d)).
Proof.
  induction d as [|[a w] d IH]; simpl; intros Hnd.
  - constructor; [intros []|constructor].
  - inversion Hnd as [|? ? Hnotin Hnd']. subst.
    destruct (String.eqb a k) eqn:E; simpl.
    + constructor; assumption.
    + constructor; [|apply IH, Hnd'].
      intros Hin. apply Hnotin.
      clear -Hin E. induction d as [|[b u] d IHd]; simpl in *.
      * destruct Hin as [<-|[]]. rewrite String.eqb_refl in E. discriminate.
      * destruct (String.eqb b k) eqn:E'; simpl in Hin.
        -- exact Hin.
        -- destruct Hin as [H|H]; [left; exact H | right; apply IHd, H].
Qed.

End UpdateAt.

(** ** Thematic index: the hierarchy pass *)

Lemma theme_index_inv_iff idx :
  theme_index_inv idx <-> theme_index_wf idx /\ links_symmetric idx.
Proof.
  unfold theme_index_inv, theme_index_wf, links_symmetric. split.
  - intros (Hnd & Hid & Hsym). split; [split; [exact Hnd|]|].
    + intros k t Hin. apply In_nth_error in Hin. destruct Hin as [i Hi].
      apply (Hid _ _ _ Hi).
    + intros ka A kb B HA HB.
      apply In_nth_error in HA, HB. destruct HA as [a Ha]. destruct HB as [b Hb].
      rewrite (Hid _ _ _ Ha), (Hid _ _ _ Hb). apply (Hsym _ _ _ _ _ _ Ha Hb).
  - intros ((Hnd & Hid) & Hsym). split; [exact Hnd|]. split.
    + intros i k t Hi. apply (Hid _ _ (nth_error_In _ _ Hi)).
    + intros a b ka A kb B Ha Hb.
      pose proof (nth_error_In _ _ Ha) as HA.
      pose proof (nth_error_In _ _ Hb) as HB.
      pose proof (Hsym _ _ _ _ HA HB) as H.
      rewrite (Hid _ _ HA), (Hid _ _ HB) in H. exact H.
Qed.

(** The entry at a position after one linking step. *)
Lemma entry_after_link idx p j ck pid a ka A' :
  nth_error (update_at p (append_sub ck)
                       (update_at j (append_parent pid) idx)) a
  = Some (ka, A') ->
  exists A,
    nth_error idx a = Some (ka, A) /\
    theme_id A' = theme_id A /\
    sub_themes A' = sub_themes A ++ (if Nat.eqb p a then [ck] else []) /\
    parent_themes A' = parent_themes A ++ (if Nat.eqb j a then [pid] else []).
Proof.
  rewrite !nth_error_update_at.
  destruct (nth_error idx a) as [[k0 A]|] eqn:E.
  2:{ destruct (Nat.eqb p a), (Nat.eqb j a); discriminate. }
  intros H. exists A.
  destruct (Nat.eqb p a), (Nat.eqb j a); simpl in H; inversion H; subst;
    simpl; rewrite ?app_nil_r; repeat split; reflexivity.
Qed.

Lemma link_step_inv p child_name idx j :
  theme_index_inv idx -> theme_index_inv (link_step p child_name idx j).
Proof.
  intros Hinv. unfold link_step.
  destruct (nth_error idx j) as [[ck child]|] eqn:Hj; [|exact Hinv].
  destruct (nth_error idx p) as [[pk parent]|] eqn:Hp; [|exact Hinv].
  destruct (String.eqb (name child) child_name); [|exact Hinv].
  destruct Hinv as (Hnd & Hid & Hsym).
  assert (Hpid : theme_id parent = pk) by apply (Hid _ _ _ Hp).
  rewrite Hpid.
  split; [rewrite !dict_keys_update_at; exact Hnd|]. split.
  - intros i k t Hi. apply entry_after_link in Hi.
    destruct Hi as (t0 & Hi & -> & _). apply (Hid _ _ _ Hi).
  - intros a b ka A' kb B' Ha Hb.
    apply entry_after_link in Ha, Hb.
    destruct Ha as (A & Ha & _ & -> & _).
    destruct Hb as (B & Hb & _ & _ & ->).
    rewrite !in_app_iff, (Hsym _ _ _ _ _ _ Ha Hb).
    apply or_iff_compat_l.
    destruct (Nat.eqb_spec p a) as [->|Hpa], (Nat.eqb_spec j b) as [->|Hjb];
      simpl.
    + rewrite Hp in Ha. rewrite Hj in Hb. inversion Ha. inversion Hb. subst.
      tauto.
    + split; [|tauto]. intros [E|[]]. subst kb. exfalso. apply Hjb.
      apply (unique_key_position _ _ _ _ _ _ _ Hnd Hj Hb).
    + split; [tauto|]. intros [E|[]]. subst ka. exfalso. apply Hpa.
      apply (unique_key_position _ _ _ _ _ _ _ Hnd Hp Ha).
    + tauto.
Qed.

Lemma link_child_inv p idx child_name :
  theme_index_inv idx -> theme_index_inv (link_child p idx child_name).
Proof.
  unfold link_child. generalize (seq 0 (length idx)). intros js. revert idx.
  induction js as [|j js IH]; intros idx H; [exact H|].
  simpl. apply IH, link_step_inv, H.
Qed.

Lemma link_hierarchy_inv idx h :
  theme_index_inv idx -> theme_index_inv (link_hierarchy idx h).
Proof.
  unfold link_hierarchy. destruct (find_theme (fst h) idx) as [p|]; [|tauto].
  generalize (snd h). intros cs. revert idx.
  induction cs as [|c cs IH]; intros idx H; [exact H|].
  simpl. apply IH, link_child_inv, H.
Qed.

Lemma build_theme_relationships_inv idx :
  theme_index_inv idx -> theme_index_inv (_build_theme_relationships idx).
Proof.
  unfold _build_theme_relationships. generalize theme_hierarchies.
  intros hs. revert idx.
  induction hs as [|h hs IH]; intros idx H; [exact H|].
  simpl. apply IH, link_hierarchy_inv, H.
Qed.

Lemma links_empty_symmetric idx : links_empty idx -> links_symmetric idx.
Proof.
  intros He ka A kb B HA HB.
  destruct (He _ _ HA) as [-> _]. destruct (He _ _ HB) as [_ ->]. tauto.
Qed.

Lemma materialize_fresh list_of_set theme_to_verses acc kv :
  theme_index_wf (fst acc) /\ links_empty (fst acc) ->
  theme_index_wf (fst (materialize list_of_set theme_to_verses acc kv)) /\
  links_empty (fst (materialize list_of_set theme_to_verses acc kv)).
Proof.
  intros [[Hnd Hid] He]. unfold materialize. simpl. split; [split|].
  - apply NoDup_dict_set, Hnd.
  - intros k t Hin. apply In_dict_set in Hin.
    destruct Hin as [[-> ->]|Hin]; [reflexivity | apply (Hid _ _ Hin)].
  - intros k t Hin. apply In_dict_set in Hin.
    destruct Hin as [[-> ->]|Hin]; [split; reflexivity | apply (He _ _ Hin)].
Qed.

Lemma materialize_all_fresh list_of_set theme_to_verses kvs acc :
  theme_index_wf (fst acc) /\ links_empty (fst acc) ->
  theme_index_wf
    (fst (fold_left (materialize list_of_set theme_to_verses) kvs acc)) /\
  links_empty
    (fst (fold_left (materialize list_of_set theme_to_verses) kvs acc)).
Proof.
  revert acc. induction kvs as [|kv kvs IH]; intros acc H; [exact H|].
  simpl. apply IH, materialize_fresh, H.
Qed.

(** ** Thematic index: confidence scores *)

Lemma py_min_is_min a b : (py_min a b == Qmin a b)%Q.
Proof.
  unfold py_min. destruct (Qlt_le_dec b a) as [H|H].
  - symmetry. apply Q.min_r. apply Qlt_le_weak, H.
  - symmetry. apply Q.min_l, H.
Qed.

Lemma theme_confidence_min n v :
  (theme_confidence n v == Qmin 1 (inject_Z (Z.of_nat (n + v)) / 100))%Q.
Proof. apply py_min_is_min. Qed.

Lemma theme_confidence_monotone n v n' v' :
  n + v <= n' + v' -> (theme_confidence n v <= theme_confidence n' v')%Q.
Proof.
  intros H. rewrite !theme_confidence_min.
  apply Q.min_le_compat_l.
  apply Qmult_le_compat_r; [|discriminate].
  rewrite <- Zle_Qle. apply Nat2Z.inj_le, H.
Qed.

Lemma theme_confidence_capped n v : (theme_confidence n v <= 1)%Q.
Proof. rewrite theme_confidence_min. apply Q.le_min_l. Qed.

Lemma link_step_confidence p child_name idx j :
  (forall k t, In (k, t) idx -> confidence_matches t) ->
  forall k t, In (k, t) (link_step p child_name idx j) -> confidence_matches t.
Proof.
  intros H k t. unfold link_step.
  destruct (nth_error idx j) as [[ck child]|]; [|apply H].
  destruct (nth_error idx p) as [[pk parent]|]; [|apply H].
  destruct (String.eqb (name child) child_name); [|apply H].
  intros Hin. apply In_update_at in Hin. destruct Hin as (t1 & Hin & E).
  apply In_update_at in Hin. destruct Hin as (t0 & Hin & E0).
  specialize (H _ _ Hin). unfold confidence_matches in *.
  destruct E as [->| ->], E0 as [->| ->]; simpl; exact H.
Qed.

Lemma build_theme_relationships_confidence idx :
  (forall k t, In (k, t) idx -> confidence_matches t) ->
  forall k t, In (k, t) (_build_theme_relationships idx) -> confidence_matches t.
Proof.
  unfold _build_theme_relationships. generalize theme_hierarchies.
  intros hs. revert idx. induction hs as [|h hs IH]; intros idx H; [exact H|].
  simpl. apply IH. clear IH. unfold link_hierarchy.
  destruct (find_theme (fst h) idx) as [p|]; [|exact H].
  generalize (snd h). intros cs. revert idx H.
  induction cs as [|c cs IHc]; intros idx H; [exact H|].
  simpl. apply IHc. clear IHc. unfold link_child.
  generalize (seq 0 (length idx)). intros js. revert idx H.
  induction js as [|j js IHj]; intros idx H; [exact H|].
  simpl. apply IHj, link_step_confidence, H.
Qed.

Lemma materialize_confidence list_of_set theme_to_verses kvs acc :
  (forall k t, In (k, t) (fst acc) -> confidence_matches t) ->
  forall k t,
    In (k, t) (fst (fold_left (materialize list_of_set theme_to_verses) kvs acc)) ->
    confidence_matches t.
Proof.
  revert acc. induction kvs as [|kv kvs IH]; intros acc H; [exact H|].
  simpl. apply IH. unfold materialize. simpl. intros k t Hin.
  apply In_dict_set in Hin. destruct Hin as [[_ ->]|Hin];
    [reflexivity | apply (H _ _ Hin)].
Qed.

(** ** Reading plans: grouping by book *)

Lemma dict_get_set (V : Type) k (v : V) d k' :
  dict_get k' (dict_set k v d)
  = if String.eqb k k' then Some v else dict_get k' d.
Proof.
  induction d as [|[a w] d IH]; simpl.
  - reflexivity.
  - destruct (String.eqb a k) eqn:E; simpl.
    + apply String.eqb_eq in E. subst a. destruct (String.eqb k k'); reflexivity.
    + destruct (String.eqb a k') eqn:E'.
      * destruct (String.eqb k k') eqn:E2; [|reflexivity].
        apply String.eqb_eq in E', E2. subst. rewrite String.eqb_refl in E.
        discriminate.
      * exact IH.
Qed.

Lemma In_dict_get (V : Type) k (v : V) d :
  NoDup (dict_keys d) -> In (k, v) d -> dict_get k d = Some v.
Proof.
  induction d as [|[a w] d IH]; simpl; [tauto|].
  intros Hnd Hin. inversion Hnd as [|? ? Hnotin Hnd']. subst.
  destruct Hin as [E|Hin].
  - inversion E. subst. rewrite String.eqb_refl. reflexivity.
  - destruct (String.eqb a k) eqn:E.
    + apply String.eqb_eq in E. subst a. exfalso. apply Hnotin.
      apply (in_map fst) in Hin. exact Hin.
    + apply IH; assumption.
Qed.

Lemma dd_append_get k x d k' :
  dict_get k' (dd_append k x d)
  = if String.eqb k k'
    then Some (match dict_get k d with Some l => l | None => [] end ++ [x])
    else dict_get k' d.
Proof.
  unfold dd_append. destruct (dict_get k d); rewrite dict_get_set; reflexivity.
Qed.

Lemma dd_append_NoDup k x d :
  NoDup (dict_keys d) -> NoDup (dict_keys (dd_append k x d)).
Proof.
  unfold dd_append. destruct (dict_get k d); apply NoDup_dict_set.
Qed.

Lemma filed_under_stored vs b verse_id :
  filed_under (stored_book vs) b verse_id
  = match dict_get verse_id vs with
    | Some v => String.eqb (book v) b
    | None => false
    end.
Proof.
  unfold filed_under, stored_book. destruct (dict_get verse_id vs); reflexivity.
Qed.

Lemma group_fold_NoDup vs ids d :
  NoDup (dict_keys d) ->
  NoDup (dict_keys
           (fold_left
              (fun by_book verse_id =>
                 match dict_get verse_id vs with
                 | Some v => dd_append (book v) verse_id by_book
                 | None => by_book
                 end) ids d)).
Proof.
  revert d. induction ids as [|i ids IH]; intros d H; [exact H|].
  simpl. apply IH.
  destruct (dict_get i vs); [apply dd_append_NoDup, H | exact H].
Qed.

(** What the grouping loop holds for a book: the ids filed under it, in
    order, after whatever the dictionary held before. *)
Lemma group_fold_get vs ids d b :
  dict_get b
    (fold_left
       (fun by_book verse_id =>
          match dict_get verse_id vs with
          | Some v => dd_append (book v) verse_id by_book
          | None => by_book
          end) ids d)
  = match dict_get b d with
    | Some l => Some (l ++ ids_of_book (stored_book vs) b ids)
    | None => match ids_of_book (stored_book vs) b ids with
              | [] => None
              | l => Some l
              end
    end.
Proof.
  revert d. induction ids as [|i ids IH]; intros d.
  - simpl. destruct (dict_get b d); [rewrite app_nil_r|]; reflexivity.
  - simpl fold_left. rewrite IH. clear IH.
    unfold ids_of_book. simpl filter. rewrite filed_under_stored.
    destruct (dict_get i vs) as [v|].
    + rewrite dd_append_get. destruct (String.eqb (book v) b) eqn:E.
      * apply String.eqb_eq in E. subst b.
        destruct (dict_get (book v) d) as [l|]; simpl; [|reflexivity].
        rewrite <- app_assoc. reflexivity.
      * reflexivity.
    + reflexivity.
Qed.

Lemma group_by_book_NoDup vs ids : NoDup (dict_keys (group_by_book vs ids)).
Proof. apply group_fold_NoDup. constructor. Qed.

Lemma group_by_book_get vs ids b :
  dict_get b (group_by_book vs ids)
  = match ids_of_book (stored_book vs) b ids with
    | [] => None
    | l => Some l
    end.
Proof. unfold group_by_book. rewrite group_fold_get. reflexivity. Qed.

(** Each entry of the grouping holds exactly the ids filed under its key. *)
Lemma group_by_book_entry vs ids b l :
  In (b, l) (group_by_book vs ids) ->
  l = ids_of_book (stored_book vs) b ids /\ l <> [].
Proof.
  intros Hin. apply In_dict_get in Hin; [|apply group_by_book_NoDup].
  rewrite group_by_book_get in Hin.
  destruct (ids_of_book (stored_book vs) b ids); [discriminate|].
  inversion Hin. split; [reflexivity|discriminate].
Qed.

Lemma in_books_of book_of ids b :
  In b (books_of book_of ids) <-> ids_of_book book_of b ids <> [].
Proof.
  unfold books_of, ids_of_book. rewrite nodup_In, in_flat_map. split.
  - intros (i & Hi & Hb). intros E.
    assert (Hin : In i (filter (filed_under book_of b) ids)).
    { apply filter_In. split; [exact Hi|]. unfold filed_under.
      destruct (book_of i) as [b'|]; [|destruct Hb].
      destruct Hb as [->|[]]. apply String.eqb_refl. }
    rewrite E in Hin. exact Hin.
  - intros Hne.
    destruct (filter (filed_under book_of b) ids) as [|i l] eqn:E; [congruence|].
    assert (Hin : In i (filter (filed_under book_of b) ids))
      by (rewrite E; left; reflexivity).
    apply filter_In in Hin. destruct Hin as [Hi Hf]. exists i.
    split; [exact Hi|]. unfold filed_under in Hf.
    destruct (book_of i) as [b'|]; [|discriminate].
    apply String.eqb_eq in Hf. left. exact Hf.
Qed.

Lemma group_by_book_keys vs ids :
  Permutation (dict_keys (group_by_book vs ids))
              (books_of (stored_book vs) ids).
Proof.
  apply NoDup_Permutation.
  - apply group_by_book_NoDup.
  - apply NoDup_nodup.
  - intros b. rewrite in_books_of. split.
    + intros Hin Hnil.
      assert (G : dict_get b (group_by_book vs ids) = None)
        by (rewrite group_by_book_get, Hnil; reflexivity).
      apply dict_get_keys in G. exact (G Hin).
    + intros Hne.
      destruct (in_dec string_dec b (dict_keys (group_by_book vs ids)))
        as [Hin|Hout]; [exact Hin|].
      apply dict_get_keys in Hout. rewrite group_by_book_get in Hout.
      destruct (ids_of_book (stored_book vs) b ids); congruence.
Qed.

Lemma list_sum_map_perm (A : Type) (f : A -> nat) l l' :
  Permutation l l' -> list_sum (map f l) = list_sum (map f l').
Proof.
  induction 1; simpl; try lia.
Qed.

Lemma length_flat_map (A B : Type) (f : A -> list B) l :
  length (flat_map f l) = list_sum (map (fun x => length (f x)) l).
Proof.
  induction l as [|x l IH]; simpl; [reflexivity|].
  rewrite length_app, IH. reflexivity.
Qed.

(** The verses the packing loop walks through number the capped count of
    the stored verses of the theme. *)
Lemma capped_sequence_length vs ids :
  length (flat_map (fun kv => firstn 20 (snd kv)) (group_by_book vs ids))
  = capped_count (stored_book vs) 20 ids.
Proof.
  rewrite length_flat_map. unfold capped_count.
  rewrite <- (list_sum_map_perm _ _ _ _ (group_by_book_keys vs ids)).
  unfold dict_keys. rewrite map_map. f_equal.
  apply map_ext_in. intros [b l] Hin. cbn [fst snd].
  apply group_by_book_entry in Hin. destruct Hin as [<- _].
  apply length_firstn.
Qed.

(** ** Reading plans: packing into days *)

Lemma pack_nested_flat (f : string * list string -> list string) l acc :
  fold_left (fun acc kv => fold_left pack_step (f kv) acc) l acc
  = fold_left pack_step (flat_map f l) acc.
Proof.
  revert acc. induction l as [|kv l IH]; intros acc; [reflexivity|].
  simpl. rewrite fold_left_app. apply IH.
Qed.

(** The packing loop keeps every closed day between 1 and 10 verses, the
    open day at most 10, and loses or reorders nothing. *)
Lemma pack_fold_spec xs ds cur :
  Forall (fun day => 1 <= length day <= 10) ds -> length cur <= 10 ->
  Forall (fun day => 1 <= length day <= 10)
         (fst (fold_left pack_step xs (ds, cur)))
  /\ length (snd (fold_left pack_step xs (ds, cur))) <= 10
  /\ concat (fst (fold_left pack_step xs (ds, cur)))
       ++ snd (fold_left pack_step xs (ds, cur))
     = concat ds ++ cur ++ xs.
Proof.
  revert ds cur. induction xs as [|x xs IH]; intros ds cur Hds Hcur.
  - simpl. rewrite app_nil_r. auto.
  - simpl fold_left.
    assert (E : pack_step (ds, cur) x
                = if 10 <=? length cur
                  then (ds ++ [cur], [x]) else (ds, cur ++ [x]))
      by reflexivity.
    rewrite E. clear E.
    destruct (Nat.leb_spec 10 (length cur)) as [Hfull|Hroom].
    + destruct (IH (ds ++ [cur]) [x]) as (H1 & H2 & H3).
      * apply Forall_app. split; [exact Hds|]. constructor; [lia|constructor].
      * simpl. lia.
      * split; [exact H1|]. split; [exact H2|].
        rewrite H3, concat_app. simpl. rewrite app_nil_r, <- app_assoc.
        reflexivity.
    + destruct (IH ds (cur ++ [x])) as (H1 & H2 & H3).
      * exact Hds.
      * rewrite length_app. simpl. lia.
      * split; [exact H1|]. split; [exact H2|].
        rewrite H3, <- app_assoc. reflexivity.
Qed.

Lemma pack_days_spec by_book :
  Forall (fun day => 1 <= length day <= 10) (pack_days by_book)
  /\ concat (pack_days by_book)
     = flat_map (fun kv => firstn 20 (snd kv)) by_book.
Proof.
  unfold pack_days. rewrite pack_nested_flat.
  destruct (pack_fold_spec
              (flat_map (fun kv => firstn 20 (snd kv)) by_book) [] [])
    as (H1 & H2 & H3); [constructor | simpl; lia |].
  simpl in H3.
  destruct (fold_left pack_step _ ([], [])) as [ds cur]. cbn [fst snd] in *.
  destruct cur as [|c cur].
  - rewrite app_nil_r in H3. split; assumption.
  - split.
    + apply Forall_app. split; [exact H1|].
      constructor; [simpl in *; lia | constructor].
    + rewrite concat_app. simpl. rewrite app_nil_r. exact H3.
Qed.

Lemma total_verses_concat p : total_verses p = length (concat (days p)).
Proof. unfold total_verses. rewrite length_concat. reflexivity. Qed.

Lemma find_theme_spec nm idx p :
  find_theme nm idx = Some p ->
  exists k t, nth_error idx p = Some (k, t) /\ name t = nm.
Proof.
  revert p. induction idx as [|[k t] idx IH]; intros p; simpl; [discriminate|].
  destruct (String.eqb (name t) nm) eqn:E.
  - intros H. inversion H. exists k, t. split; [reflexivity|].
    apply String.eqb_eq, E.
  - destruct (find_theme nm idx) as [q|]; [|discriminate].
    intros H. inversion H. apply (IH q eq_refl).
Qed.

(** A plan added for a theme is the packing of that theme's stored
    verses. *)
Lemma plan_for_theme_spec vs idx acc theme_name k p :
  In (k, p) (fst (plan_for_theme vs idx acc theme_name)) ->
  In (k, p) (fst acc) \/
  exists kt t,
    In (kt, t) idx /\ name t = theme_name /\ theme p = theme_name /\
    10 < total_references t /\
    days p = plan_days vs t /\ days p <> [].
Proof.
  unfold plan_for_theme.
  destruct (find_theme theme_name idx) as [q|] eqn:F; [|tauto].
  destruct (find_theme_spec _ _ _ F) as (kt & t & Hq & Hn).
  rewrite Hq.
  destruct (Nat.ltb_spec 10 (total_references t)) as [Hgt|]; [|tauto].
  destruct (plan_days vs t) as [|d ds] eqn:D; [tauto|].
  cbn [fst]. intros Hin. apply In_dict_set in Hin.
  destruct Hin as [[_ ->]|Hin]; [right | left; exact Hin].
  exists kt, t. split; [apply (nth_error_In _ _ Hq)|].
  simpl. rewrite D. repeat split; try assumption. discriminate.
Qed.

Lemma plans_for_themes_spec vs idx themes acc k p :
  In (k, p) (fst (fold_left (plan_for_theme vs idx) themes acc)) ->
  In (k, p) (fst acc) \/
  exists kt t,
    In (kt, t) idx /\ name t = theme p /\ In (theme p) themes /\
    10 < total_references t /\
    days p = plan_days vs t /\ days p <> [].
Proof.
  revert acc. induction themes as [|th themes IH]; intros acc; [tauto|].
  simpl. intros Hin. destruct (IH _ Hin) as [H|(kt & t & H1 & H2 & H3 & H4)].
  - apply plan_for_theme_spec in H.
    destruct H as [H|(kt & t & H1 & H2 & H3 & H4)]; [left; exact H|].
    right. exists kt, t. rewrite H3. repeat split; try tauto.
  - right. exists kt, t. repeat split; tauto.
Qed.

(* ====================================================================== *)
(** * The properties of the specification                                 *)
(* ====================================================================== *)

(** C1. On the scenario input the Note Builder creates exactly one note,
    N0001, linked to GEN.1.1.  The extractor's pattern captures "John 1:1"
    without the range suffix, so the single edge it emits targets JOH.1.1
    (type "explanation", confidence 0.8); JOH.1.2 and JOH.1.3 are not
    targets, although the Reference Parser expands "John 1:1-3" to the three
    ids.  A row with only the reference and the text creates no note. *)
Theorem scenario_cross_refs_stop_at_first_verse :
  map (fun kv => (fst kv, linked_verses (snd kv))) (notes scenario_result)
    = [("N0001", ["GEN.1.1"])]
  /\ findall cross_ref_pattern scenario_note_text = ["John 1:1"]
  /\ map (fun x => (source_id x, target_id x, ref_type x))
         (cross_refs scenario_result)
       = [("N0001", "JOH.1.1", "explanation")]
  /\ map confidence (cross_refs scenario_result) = [0.8%Q]
  /\ _parse_verse_reference "John 1:1-3" = ["JOH.1.1"; "JOH.1.2"; "JOH.1.3"]
  /\ notes (_parse_notes_tsv [scenario_line_two_columns] scenario_store) = [].
Proof. vm_compute. repeat split; reflexivity. Qed.

(** C2. A fragment of a reference string that matches the reference
    pattern with a resolvable book name, a chapter, a start verse and an
    explicit end verse contributes, at its place in the result, one verse
    id per integer of [start, end] in increasing order (none when the
    interval is empty).  In particular every string "Book C:S-E" made of a
    resolvable book word and three numbers parses to exactly these ids, and
    "Genesis 1:1-3" yields GEN.1.1, GEN.1.2, GEN.1.3. *)
Theorem range_expansion :
  (forall ref_str pre frag post book_name ch sv ev ab,
      ref_parts ref_str = pre ++ frag :: post ->
      reference_groups frag = Some (book_name, ch, sv, Some ev) ->
      _book_name_to_abbrev book_name = Some ab ->
      let start := int_of_digits sv in
      let stop := int_of_digits ev in
      let ids := map (format_verse_id ab ch) (seq start (stop + 1 - start)) in
      _parse_verse_reference ref_str
      = flat_map parse_fragment pre ++ ids ++ flat_map parse_fragment post
      /\ length ids = stop + 1 - start
      /\ (forall i, start + i <= stop ->
                    nth_error ids i = Some (format_verse_id ab ch (start + i))))
  /\ (forall b c s e ab,
         is_book_word b = true -> is_number c = true ->
         is_number s = true -> is_number e = true ->
         _book_name_to_abbrev b = Some ab ->
         _parse_verse_reference (b ++ " " ++ c ++ ":" ++ s ++ "-" ++ e)
         = map (format_verse_id ab c)
               (seq (int_of_digits s)
                    (int_of_digits e + 1 - int_of_digits s)))
  /\ _parse_verse_reference "Genesis 1:1-3" = ["GEN.1.1"; "GEN.1.2"; "GEN.1.3"].
Proof.
  split; [|split; [exact parse_plain_range | vm_compute; reflexivity]].
  intros ref_str pre frag post book_name ch sv ev ab Hparts Hg Hb start stop ids.
  split; [|split].
  - unfold _parse_verse_reference. rewrite Hparts, parse_reference_app.
    simpl. rewrite (parse_fragment_range _ _ _ _ _ _ Hg Hb). reflexivity.
  - unfold ids. rewrite length_map, length_seq. reflexivity.
  - intros i Hi. unfold ids.
    rewrite nth_error_map.
    rewrite nth_error_seq.
    destruct (Nat.ltb_spec i (stop + 1 - start)); [reflexivity | lia].
Qed.

Lemma range_expansion_witness :
  _parse_verse_reference "Gen 1:1; Romans 5:12-14, John 3:16"
  = flat_map parse_fragment ["Gen 1:1"]
      ++ map (format_verse_id "ROM" "5") (seq 12 3)
      ++ flat_map parse_fragment ["John 3:16"].
Proof.
  refine (proj1 (proj1 range_expansion
                   "Gen 1:1; Romans 5:12-14, John 3:16"
                   ["Gen 1:1"] "Romans 5:12-14" ["John 3:16"]
                   "Romans" "5" "12" "14" "ROM" _ _ _));
    vm_compute; reflexivity.
Defined.

(** C8. A reference string none of whose fragments both matches the
    pattern and names a resolvable book parses to the empty list: the
    parser is a total function and has no error result.  "Xyz 1:1"
    yields []. *)
Theorem unresolved_reference_yields_empty_list :
  (forall ref_str,
      (forall frag, In frag (ref_parts ref_str) ->
         match reference_groups frag with
         | None => True
         | Some (book_name, _, _, _) => _book_name_to_abbrev book_name = None
         end) ->
      _parse_verse_reference ref_str = [])
  /\ reference_groups "Xyz 1:1" = Some ("Xyz", "1", "1", None)
  /\ _book_name_to_abbrev "Xyz" = None
  /\ _parse_verse_reference "Xyz 1:1" = [].
Proof.
  split; [|repeat split; vm_compute; reflexivity].
  intros ref_str H. unfold _parse_verse_reference.
  induction (ref_parts ref_str) as [|frag rest IH]; [reflexivity|].
  simpl. rewrite parse_fragment_unresolved by (apply H; left; reflexivity).
  apply IH. intros f Hf. apply H. right. exact Hf.
Qed.

Lemma unresolved_reference_witness :
  _parse_verse_reference "Xyz 1:1; see above, chapter 12" = [].
Proof.
  apply (proj1 unresolved_reference_yields_empty_list).
  intros frag Hin. vm_compute in Hin.
  destruct Hin as [<- | [<- | [<- | []]]]; vm_compute; auto.
Defined.

(** C3. A row whose reference string resolves to no verse id leaves the
    whole parser state as it was: no note, no counter step, no edge, no
    back-reference.  Hence every note of the table links at least one
    verse, after any run of the Note Builder that starts from a table with
    that property, in particular from a fresh parser. *)
Theorem unresolved_rows_are_discarded :
  (forall st line parts,
      note_row line = Some parts ->
      _parse_verse_reference (row_reference parts) = [] ->
      parse_note_line st line = st)
  /\ (forall lines st,
         notes_linked (notes st) ->
         notes_linked (notes (_parse_notes_tsv lines st)))
  /\ (forall lines, notes_linked (notes (_parse_notes_tsv lines init_parser))).
Proof.
  assert (Hinv : forall lines st,
             notes_linked (notes st) ->
             notes_linked (notes (_parse_notes_tsv lines st))).
  { unfold _parse_notes_tsv. induction lines as [|l lines IH]; intros st H.
    - exact H.
    - simpl. apply IH. apply parse_note_line_keeps_links. exact H. }
  split; [|split].
  - intros st line parts Hrow Hrefs. unfold parse_note_line.
    rewrite Hrow. unfold row_reference in Hrefs. rewrite Hrefs. reflexivity.
  - exact Hinv.
  - intros lines. apply Hinv. intros k n [].
Qed.

Lemma unresolved_rows_witness :
  parse_note_line scenario_store (tsv_line ["Xyz 1:1"; "An orphan note"; "Misc"])
  = scenario_store.
Proof.
  apply (proj1 unresolved_rows_are_discarded scenario_store
               (tsv_line ["Xyz 1:1"; "An orphan note"; "Misc"])
               ["Xyz 1:1"; "An orphan note"; "Misc"]);
    vm_compute; reflexivity.
Defined.

(** C9, as stated, fails: a note text that contains the words "grace" and
    "covenant" need not be tagged "Covenant Theology". *)
Lemma grace_covenant_counterexample :
  ~ (forall note_text,
        occurs "grace" (lower note_text) ->
        occurs_at_word_boundary "covenant" (lower note_text) ->
        In "Grace" (_extract_themes_from_note note_text) /\
        In "Covenant Theology" (_extract_themes_from_note note_text)).
Proof.
  intros H.
  destruct (H "grace and covenant") as [_ Hc].
  - exists "", " and covenant". reflexivity.
  - exists "grace and ", "". split; reflexivity.
  - vm_compute in Hc. intuition discriminate.
Qed.

(** C9, amended.  A note text that contains "grace" and contains
    "covenant" at a word boundary (case-insensitively) is tagged "Grace"
    and "Covenants"; it is tagged "Covenant Theology" exactly when it
    contains "covenant theology", or "covenant theolog" at a word
    boundary. *)
Theorem grace_covenant_tags (note_text : string) :
  occurs "grace" (lower note_text) ->
  occurs_at_word_boundary "covenant" (lower note_text) ->
  In "Grace" (_extract_themes_from_note note_text)
  /\ In "Covenants" (_extract_themes_from_note note_text)
  /\ (In "Covenant Theology" (_extract_themes_from_note note_text) <->
      occurs "covenant theology" (lower note_text) \/
      occurs_at_word_boundary "covenant theolog" (lower note_text)).
Proof.
  intros Hg Hc. rewrite !theme_tag_iff. split; [|split].
  - split; [vm_compute; tauto|]. left. exact Hg.
  - split; [vm_compute; tauto|]. right. exact Hc.
  - split; [intros [_ H]; exact H|].
    intros H. split; [vm_compute; tauto|exact H].
Qed.

Lemma grace_covenant_tags_witness :
  In "Grace" (_extract_themes_from_note "Grace and the new Covenant")
  /\ In "Covenants" (_extract_themes_from_note "Grace and the new Covenant").
Proof.
  refine (let H := grace_covenant_tags "Grace and the new Covenant" _ _ in
          conj (proj1 H) (proj1 (proj2 H))).
  - exists "", " and the new covenant". vm_compute. reflexivity.
  - exists "grace and the new ", "". split; vm_compute; reflexivity.
Defined.

(** C10. The Reference Parser does not consult the chapter counts: "Book
    C:V" yields the id of chapter C for every number C, so "Genesis 99:1"
    yields GEN.99.1 although Genesis has 50 chapters.  The Note Builder
    stores the resolved ids unchanged in the note, never adds a verse to
    the store, and appends the note id only to the verses that are in the
    store; a note can thus link a verse id that is not in the store. *)
Theorem unchecked_references_are_linked :
  (forall b c v ab,
      is_book_word b = true -> is_number c = true -> is_number v = true ->
      _book_name_to_abbrev b = Some ab ->
      _parse_verse_reference (b ++ " " ++ c ++ ":" ++ v)
      = [format_verse_id ab c (int_of_digits v)])
  /\ (_parse_verse_reference "Genesis 99:1" = ["GEN.99.1"]
      /\ dict_get "GEN" BOOK_CHAPTER_COUNTS = Some 50)
  /\ (forall st line parts,
         note_row line = Some parts ->
         _parse_verse_reference (row_reference parts) <> [] ->
         (exists n,
             dict_get (format_note_id (note_counter st))
                      (notes (parse_note_line st line)) = Some n
             /\ linked_verses n = _parse_verse_reference (row_reference parts))
         /\ dict_keys (verses (parse_note_line st line)) = dict_keys (verses st)
         /\ (forall id,
                dict_get id (verses (parse_note_line st line))
                = option_map
                    (extend_note_ids
                       (repeat (format_note_id (note_counter st))
                               (count_occ string_dec
                                  (_parse_verse_reference (row_reference parts))
                                  id)))
                    (dict_get id (verses st))))
  /\ (exists n,
         dict_get "N0001"
                  (notes (parse_note_line scenario_store
                            (tsv_line ["Genesis 99:1"; "Beyond the book"; "Misc"])))
         = Some n
         /\ linked_verses n = ["GEN.99.1"]
         /\ dict_mem "GEN.99.1"
              (verses (parse_note_line scenario_store
                         (tsv_line ["Genesis 99:1"; "Beyond the book"; "Misc"])))
            = false).
Proof.
  split; [exact parse_plain_single|].
  split; [split; vm_compute; reflexivity|].
  split.
  - intros st line parts Hrow Hne.
    destruct (parse_note_line_cases st line)
      as [E|(parts' & Hrow' & _ & n & Hl & E)].
    + exfalso. apply Hne. unfold parse_note_line in E. rewrite Hrow in E.
      unfold row_reference.
      destruct (_parse_verse_reference (strip (nth 0 parts ""))) eqn:R;
        [reflexivity|].
      apply (f_equal note_counter) in E. simpl in E. lia.
    + rewrite Hrow in Hrow'. inversion Hrow'. subst parts'. rewrite E. simpl.
      split; [|split].
      * exists n. split; [apply dict_get_set_same | exact Hl].
      * apply link_note_to_verses_keys.
      * intros id. apply link_note_to_verses_get.
  - eexists. split; [vm_compute; reflexivity|].
    split; vm_compute; reflexivity.
Qed.

Lemma unchecked_references_witness :
  _parse_verse_reference ("Ruth" ++ " " ++ "150" ++ ":" ++ "7") = ["RUT.150.7"]
  /\ dict_get "RUT" BOOK_CHAPTER_COUNTS = Some 4.
Proof.
  split; [|reflexivity].
  apply (proj1 unchecked_references_are_linked "Ruth" "150" "7" "RUT");
    vm_compute; reflexivity.
Defined.

(** C4. Every edge the Cross-Reference Extractor emits has the id it was
    called with as source, a canonical verse id as target, type
    "explanation" and confidence 0.8.  In a run of the Note Builder the
    source is the generated id of a note of the table, so every edge goes
    from a note to a verse: generated note ids and verse ids are disjoint,
    and no edge is classified verse-to-verse. *)
Theorem extracted_edges_are_note_to_verse :
  (forall note_id note_text x,
      In x (extracted_cross_refs note_id note_text) ->
      source_id x = note_id /\ is_verse_id (target_id x) /\
      ref_type x = "explanation" /\ confidence x = 0.8%Q)
  /\ (forall lines st,
         (forall y, In y (cross_refs st) ->
                    note_to_verse_edge y /\
                    In (source_id y) (dict_keys (notes st))) ->
         forall x, In x (cross_refs (_parse_notes_tsv lines st)) ->
                   note_to_verse_edge x /\
                   In (source_id x)
                      (dict_keys (notes (_parse_notes_tsv lines st))))
  /\ (forall lines x,
         In x (cross_refs (_parse_notes_tsv lines init_parser)) ->
         note_to_verse_edge x /\
         In (source_id x)
            (dict_keys (notes (_parse_notes_tsv lines init_parser))) /\
         ~ is_verse_id (source_id x) /\ ~ is_note_id (target_id x) /\
         is_verse_to_verse x = false)
  /\ (forall s, is_note_id s -> ~ is_verse_id s).
Proof.
  split; [exact extracted_cross_refs_shape|].
  split; [exact parse_notes_tsv_edges|].
  split; [|exact note_ids_are_not_verse_ids].
  intros lines x Hin.
  destruct (parse_notes_tsv_edges lines init_parser
              ltac:(intros y []) x Hin) as [He Hk].
  split; [exact He|]. split; [exact Hk|].
  destruct He as (Hs & Ht & _ & _).
  split; [apply note_ids_are_not_verse_ids, Hs|].
  split; [intros Hn; apply (note_ids_are_not_verse_ids _ Hn Ht)|].
  unfold is_verse_to_verse. destruct Hs as [n ->]. reflexivity.
Qed.

Lemma extracted_edges_witness :
  source_id (explanation_edge "N0001" "JOH.1.1") = "N0001" /\
  is_verse_id (target_id (explanation_edge "N0001" "JOH.1.1")) /\
  ref_type (explanation_edge "N0001" "JOH.1.1") = "explanation" /\
  confidence (explanation_edge "N0001" "JOH.1.1") = 0.8%Q.
Proof.
  apply (proj1 extracted_edges_are_note_to_verse "N0001" scenario_note_text).
  vm_compute. left. reflexivity.
Defined.

(** C6. Every theme of the index after the Thematic Indexer has run (given
    that those already in the index do) carries the score
    min(1, (noteCount + verseCount) / 100) of its own note and verse
    lists; that score is non-decreasing in noteCount + verseCount and never
    exceeds 1. *)
Theorem theme_confidence_is_saturating_score :
  (forall list_of_set st,
      (forall k t, In (k, t) (thematic_index st) -> confidence_matches t) ->
      forall k t,
        In (k, t) (thematic_index (build_thematic_network list_of_set st)) ->
        confidence_score t
        = theme_confidence (length (theme_note_ids t)) (length (verse_ids t)))
  /\ (forall n v,
         (theme_confidence n v
          == Qmin 1 (inject_Z (Z.of_nat (n + v)) / 100))%Q)
  /\ (forall n v n' v',
         n + v <= n' + v' ->
         (theme_confidence n v <= theme_confidence n' v')%Q)
  /\ (forall n v, (theme_confidence n v <= 1)%Q).
Proof.
  split; [|split; [exact theme_confidence_min|
                   split; [exact theme_confidence_monotone|
                           exact theme_confidence_capped]]].
  intros list_of_set st H k t Hin. unfold build_thematic_network in Hin.
  simpl in Hin.
  apply build_theme_relationships_confidence in Hin; [exact Hin|].
  apply materialize_confidence. exact H.
Qed.

Lemma theme_confidence_witness :
  (exists t,
      dict_get "T004" (thematic_index study_index) = Some t /\
      name t = "Salvation" /\
      length (theme_note_ids t) = 11 /\ length (verse_ids t) = 2 /\
      confidence_score t
      = theme_confidence (length (theme_note_ids t)) (length (verse_ids t)))
  /\ (theme_confidence 11 2 <= theme_confidence 90 20)%Q.
Proof.
  split.
  - eexists. split; [vm_compute; reflexivity|].
    split; [reflexivity|]. split; [reflexivity|]. split; [reflexivity|].
    apply (proj1 theme_confidence_is_saturating_score
                 (nodup string_dec) study_notes (fun k t (H : In (k, t) []) =>
                                                  match H with end)
                 "T004").
    apply dict_get_In. vm_compute. reflexivity.
  - apply (proj1 (proj2 (proj2 theme_confidence_is_saturating_score))).
    simpl. lia.
Defined.

(** C7. The hierarchy pass keeps the theme index well formed and its
    parent/child links symmetric: afterwards A lists B's id among its
    sub-themes exactly when B lists A's id among its parents.  This holds in
    particular for the index the Thematic Indexer builds from an index
    without links, such as that of a fresh parser. *)
Theorem hierarchy_links_are_symmetric :
  (forall idx,
      theme_index_wf idx -> links_symmetric idx ->
      theme_index_wf (_build_theme_relationships idx) /\
      links_symmetric (_build_theme_relationships idx))
  /\ (forall list_of_set st,
         theme_index_wf (thematic_index st) ->
         links_empty (thematic_index st) ->
         links_symmetric
           (thematic_index (build_thematic_network list_of_set st))).
Proof.
  split.
  - intros idx Hwf Hsym. apply theme_index_inv_iff.
    apply build_theme_relationships_inv. apply theme_index_inv_iff.
    split; assumption.
  - intros list_of_set st Hwf He. unfold build_thematic_network. simpl.
    apply theme_index_inv_iff. apply build_theme_relationships_inv.
    apply theme_index_inv_iff.
    destruct (materialize_all_fresh list_of_set
                (collect_verses (verses st) (snd (collect_notes (notes st))))
                (fst (collect_notes (notes st)))
                (thematic_index st, theme_counter st)
                (conj Hwf He)) as [Hwf' He'].
    split; [exact Hwf' | apply links_empty_symmetric, He'].
Qed.

Lemma hierarchy_links_witness :
  links_symmetric (thematic_index study_index)
  /\ map (fun kt => (fst kt, sub_themes (snd kt), parent_themes (snd kt)))
         (thematic_index study_index)
     = [("T001", ["T003"], []); ("T002", [], []); ("T003", [], ["T001"]);
        ("T004", ["T005"], []); ("T005", [], ["T004"])].
Proof.
  split; [|vm_compute; reflexivity].
  apply (proj2 hierarchy_links_are_symmetric (nodup string_dec) study_notes).
  - vm_compute. split; [constructor | intros k t []].
  - vm_compute. intros k t [].
Defined.

(** C5, as stated, fails: the plan generator leaves out the verse ids of
    the theme that are not in the verse store.  In the study run the theme
    "Salvation" has the two verse ids GEN.1.1 and JOH.3.16, its plan the
    single verse GEN.1.1. *)
Lemma reading_plan_total_counterexample : ~ plans_cover_theme_verses study_index.
Proof.
  intros H.
  destruct (H "P002"
              (new_plan "P002" "Salvation" [["GEN.1.1"]])
              "T004"
              (append_sub "T005"
                 (new_theme "T004" "Salvation"
                    (map format_note_id (seq 1 11)) ["GEN.1.1"; "JOH.3.16"])))
    as [_ Htotal].
  - vm_compute. right. left. reflexivity.
  - vm_compute. do 3 right. left. reflexivity.
  - reflexivity.
  - vm_compute in Htotal. discriminate Htotal.
Qed.

(** C5, amended.  Every plan the Reading-Plan Generator adds belongs to a
    theme of the index with more than 10 references; each of its days
    holds between 1 and 10 verse ids, and the total over its days equals
    the number of the theme's verse ids that are present in the verse
    store, after capping each book's contribution at 20. *)
Theorem reading_plans_are_bounded_and_complete (st : parser) k p :
  In (k, p) (reading_plans (generate_reading_plans st)) ->
  In (k, p) (reading_plans st) \/
  exists kt t,
    In (kt, t) (thematic_index st) /\ name t = theme p /\
    In (theme p) major_themes /\ 10 < total_references t /\
    days p = plan_days (verses st) t /\
    Forall (fun day => 1 <= length day <= 10) (days p) /\
    total_verses p
    = capped_count (stored_book (verses st)) 20 (verse_ids t).
Proof.
  unfold generate_reading_plans. cbn [reading_plans]. intros Hin.
  apply plans_for_themes_spec in Hin.
  destruct Hin as [Hin|(kt & t & H1 & H2 & H3 & H4 & H5 & _)];
    [left; exact Hin|].
  right. exists kt, t.
  destruct (pack_days_spec (group_by_book (verses st) (verse_ids t)))
    as [Hb Hc].
  repeat split; try assumption.
  - rewrite H5. exact Hb.
  - rewrite total_verses_concat, H5. unfold plan_days.
    rewrite Hc. apply capped_sequence_length.
Qed.

Lemma reading_plans_witness :
  In ("P002", new_plan "P002" "Salvation" [["GEN.1.1"]]) (reading_plans study_index)
  \/ exists kt t,
      In (kt, t) (thematic_index study_index) /\
      name t = "Salvation" /\
      In "Salvation" major_themes /\ 10 < total_references t /\
      [["GEN.1.1"]] = plan_days (verses study_index) t /\
      Forall (fun day => 1 <= length day <= 10) [["GEN.1.1"]] /\
      1 = capped_count (stored_book (verses study_index)) 20 (verse_ids t).
Proof.
  apply (reading_plans_are_bounded_and_complete study_index "P002"
           (new_plan "P002" "Salvation" [["GEN.1.1"]])).
  vm_compute. right. left. reflexivity.
Defined.

(* ====================================================================== *)
(** * Further properties of the modelled code                              *)
(* ====================================================================== *)

(** ** Reference parser: separators *)

(** Splitting [a ; b] at a separator: the pieces of [a], of which the last
    is dropped when it is the empty piece a trailing run leaves, followed
    by the pieces of [b] read inside a run. *)
Lemma re_split_run_joined sep c a b :
  sep c = true ->
  forall in_run,
  exists init l,
    re_split_run sep in_run a = init ++ [l] /\
    (re_split_run sep in_run (a ++ String c b)
     = init ++ l :: re_split_run sep true b
     \/ (l = EmptyString /\ (init <> [] \/ in_run = true) /\
         re_split_run sep in_run (a ++ String c b)
         = init ++ re_split_run sep true b)).
Proof.
  intros Hc. induction a as [|x a IH]; intros in_run.
  - exists [], EmptyString. split; [reflexivity|]. simpl. rewrite Hc.
    destruct in_run.
    + right. split; [reflexivity|]. split; [right; reflexivity|reflexivity].
    + left. reflexivity.
  - simpl. destruct (sep x) eqn:Hx.
    + destruct (IH true) as (init & l & E & H). rewrite E.
      destruct in_run.
      * exists init, l. split; [reflexivity|].
        destruct H as [H|(Hl & _ & H)]; rewrite H;
          [left; reflexivity|].
        right. split; [exact Hl|]. split; [right; reflexivity|reflexivity].
      * exists (EmptyString :: init), l. split; [reflexivity|].
        destruct H as [H|(Hl & _ & H)]; rewrite H;
          [left; reflexivity|].
        right. split; [exact Hl|]. split; [left; discriminate|reflexivity].
    + destruct (IH false) as (init & l & E & H). rewrite E.
      destruct init as [|h init].
      * simpl. exists [], (String x l). split; [reflexivity|].
        destruct H as [H|(Hl & [Hi|Hi] & H)]; try congruence.
        rewrite H. left. reflexivity.
      * simpl. exists (String x h :: init), l. split; [reflexivity|].
        destruct H as [H|(Hl & _ & H)]; rewrite H; simpl;
          [left; reflexivity|].
        right. split; [exact Hl|]. split; [left; discriminate|reflexivity].
Qed.

Lemma fragments_in_run sep s :
  filter (fun p => negb (is_empty p)) (map strip (re_split_run sep true s))
  = filter (fun p => negb (is_empty p)) (map strip (re_split_run sep false s)).
Proof.
  destruct s as [|x s]; [reflexivity|]. simpl.
  destruct (sep x); reflexivity.
Qed.

Lemma ref_parts_joined c a b :
  is_ref_separator c = true ->
  ref_parts (a ++ String c b) = ref_parts a ++ ref_parts b.
Proof.
  intros Hc. unfold ref_parts, re_split.
  destruct (re_split_run_joined is_ref_separator c a b Hc false)
    as (init & l & E & H).
  rewrite E, <- (fragments_in_run is_ref_separator b).
  destruct H as [H|(Hl & _ & H)]; rewrite H.
  - rewrite !map_app, !filter_app. simpl map. simpl filter.
    destruct (negb (is_empty (strip l))); simpl; rewrite <- ?app_assoc;
      reflexivity.
  - subst l. rewrite !map_app, !filter_app. simpl. rewrite app_nil_r.
    reflexivity.
Qed.

(** X1. A reference string made of two parts joined by [;] or [,] parses
    to the ids of the first part followed by those of the second. *)
Theorem parse_verse_reference_joined a b :
  _parse_verse_reference (a ++ ";" ++ b)
  = _parse_verse_reference a ++ _parse_verse_reference b
  /\ _parse_verse_reference (a ++ "," ++ b)
     = _parse_verse_reference a ++ _parse_verse_reference b.
Proof.
  unfold _parse_verse_reference. split.
  - change (a ++ ";" ++ b)%string with (a ++ String ";" b)%string.
    rewrite ref_parts_joined by reflexivity. apply flat_map_app.
  - change (a ++ "," ++ b)%string with (a ++ String "," b)%string.
    rewrite ref_parts_joined by reflexivity. apply flat_map_app.
Qed.

Lemma parse_fragment_sound frag id :
  In id (parse_fragment frag) ->
  exists book_name ch sv ev ab n,
    reference_groups frag = Some (book_name, ch, sv, ev) /\
    _book_name_to_abbrev book_name = Some ab /\
    int_of_digits sv <= n /\
    n <= match ev with
         | Some e => int_of_digits e
         | None => int_of_digits sv
         end /\
    id = format_verse_id ab ch n.
Proof.
  unfold parse_fragment.
  destruct (reference_groups frag) as [[[[b ch] sv] ev]|] eqn:G; [|intros []].
  destruct (_book_name_to_abbrev b) as [ab|] eqn:B; [|intros []].
  intros Hin. apply in_map_iff in Hin. destruct Hin as (n & <- & Hn).
  unfold py_range in Hn. apply in_seq in Hn.
  exists b, ch, sv, ev, ab, n.
  split; [reflexivity|]. split; [exact B|].
  destruct ev as [e|]; repeat split; lia.
Qed.

(** X2. The Reference Parser emits nothing but what its fragments call
    for: every id of the result comes from a fragment that matches the
    pattern, names a resolvable book of the registry, and lies between the
    fragment's start verse and its end verse (the start verse when no end
    is given); chapter and start verse are numbers. *)
Theorem parse_verse_reference_sound ref_str id :
  In id (_parse_verse_reference ref_str) ->
  exists frag book_name ch sv ev ab n,
    In frag (ref_parts ref_str) /\
    reference_groups frag = Some (book_name, ch, sv, ev) /\
    _book_name_to_abbrev book_name = Some ab /\
    In ab (dict_keys BIBLE_BOOKS) /\
    is_number ch = true /\ is_number sv = true /\
    int_of_digits sv <= n /\
    n <= match ev with
         | Some e => int_of_digits e
         | None => int_of_digits sv
         end /\
    id = format_verse_id ab ch n.
Proof.
  unfold _parse_verse_reference. intros Hin.
  apply in_flat_map in Hin. destruct Hin as (frag & Hfrag & Hin).
  apply parse_fragment_sound in Hin.
  destruct Hin as (b & ch & sv & ev & ab & n & G & B & Hlo & Hhi & ->).
  exists frag, b, ch, sv, ev, ab, n.
  destruct (reference_groups_numbers _ _ _ _ _ G) as (Hch & Hsv & _).
  repeat split; try assumption.
  apply (book_name_to_abbrev_in_registry _ _ B).
Qed.

Lemma parse_verse_reference_sound_witness :
  exists frag book_name ch sv ev ab n,
    In frag (ref_parts "Gen 1:1; Romans 5:12-14") /\
    reference_groups frag = Some (book_name, ch, sv, ev) /\
    _book_name_to_abbrev book_name = Some ab /\
    In ab (dict_keys BIBLE_BOOKS) /\
    is_number ch = true /\ is_number sv = true /\
    int_of_digits sv <= n /\
    n <= match ev with
         | Some e => int_of_digits e
         | None => int_of_digits sv
         end /\
    "ROM.5.13" = format_verse_id ab ch n.
Proof.
  apply (parse_verse_reference_sound "Gen 1:1; Romans 5:12-14" "ROM.5.13").
  vm_compute. do 2 right. left. reflexivity.
Defined.

(** ** Book registry: case and surrounding blanks *)

Ltac by_ascii_cases c :=
  destruct c as [[] [] [] [] [] [] [] []]; reflexivity.

Lemma is_letter_lower_char c : is_letter (lower_char c) = is_letter c.
Proof. by_ascii_cases c. Qed.
Lemma lower_char_idem c : lower_char (lower_char c) = lower_char c.
Proof. by_ascii_cases c. Qed.
Lemma upper_lower_char c : upper_char (lower_char c) = upper_char c.
Proof. by_ascii_cases c. Qed.



Lemma title_from_lower f s : title_from f (lower s) = title_from f s.
Proof.
  revert f. induction s as [|c s IH]; intros f; simpl; [reflexivity|].
  rewrite is_letter_lower_char, lower_char_idem, upper_lower_char, !IH.
  destruct (is_letter c) eqn:L; [reflexivity|].
  f_equal. unfold lower_char, is_letter in *.
  destruct (is_upper c); [discriminate|reflexivity].
Qed.

Section CaseMaps.
(** A character map that leaves blanks blank and non-blanks non-blank
    commutes with [strip]. *)
Variable f : ascii -> ascii.
Hypothesis f_space : forall c, is_space (f c) = is_space c.



End CaseMaps.





(** The resolver reads its argument only through the lower-cased,
    stripped text. *)
Lemma book_name_to_abbrev_folded s s' :
  lower (strip s) = lower (strip s') ->
  _book_name_to_abbrev s = _book_name_to_abbrev s'.
Proof.
  intros H. unfold _book_name_to_abbrev.
  assert (E : title (strip s) = title (strip s')).
  { unfold title. rewrite <- (title_from_lower false (strip s)), H.
    apply title_from_lower. }
  rewrite E. reflexivity.
Qed.



Lemma registry_names_resolve :
  forallb (fun kv =>
             String.eqb (strip (snd kv)) (snd kv) &&
             match _book_name_to_abbrev (snd kv) with
             | Some ab => String.eqb ab (fst kv)
             | None => false
             end) BIBLE_BOOKS = true.
Proof. vm_compute. reflexivity. Qed.

(** X4. Round trip through the registry: every full name of [BIBLE_BOOKS],
    in any letter case and with any surrounding whitespace, resolves to its
    own abbreviation; and whatever the resolver returns is an abbreviation
    of the registry. *)
Theorem registry_round_trip :
  (forall ab full_name s,
      In (ab, full_name) BIBLE_BOOKS ->
      lower (strip s) = lower full_name ->
      _book_name_to_abbrev s = Some ab)
  /\ (forall s ab,
         _book_name_to_abbrev s = Some ab ->
         exists full_name, In (ab, full_name) BIBLE_BOOKS).
Proof.
  split.
  - intros ab full_name s Hin Hs.
    pose proof registry_names_resolve as H.
    rewrite forallb_forall in H. specialize (H _ Hin). simpl in H.
    apply andb_true_iff in H. destruct H as [Hstrip Hres].
    apply String.eqb_eq in Hstrip.
    rewrite (book_name_to_abbrev_folded s full_name)
      by (rewrite Hstrip; exact Hs).
    destruct (_book_name_to_abbrev full_name) as [ab'|]; [|discriminate].
    apply String.eqb_eq in Hres. subst ab'. reflexivity.
  - intros s ab H. apply book_name_to_abbrev_in_registry in H.
    unfold dict_keys in H. apply in_map_iff in H.
    destruct H as ([ab' nm] & E & Hin). simpl in E. subst ab'.
    exists nm. exact Hin.
Qed.

Lemma registry_round_trip_witness :
  _book_name_to_abbrev " 1 THESSALONIANS" = Some "1TH".
Proof.
  apply (proj1 registry_round_trip "1TH" "1 Thessalonians").
  - vm_compute. do 51 right. left. reflexivity.
  - vm_compute. reflexivity.
Defined.

Lemma upper_char_not_lower c : is_lower (upper_char c) = false.
Proof. by_ascii_cases c. Qed.
Lemma is_letter_upper_char c : is_letter (upper_char c) = is_letter c.
Proof. by_ascii_cases c. Qed.
Lemma lower_is_letter c : is_lower c = true -> is_letter c = true.
Proof. unfold is_letter. intros ->. apply orb_true_r. Qed.

(** In a title-cased string no lower-case letter follows a non-letter. *)
Lemma title_from_after_non_letter s f pre x y post :
  title_from f s = (pre ++ String x (String y post))%string ->
  is_letter x = false -> is_lower y = false.
Proof.
  revert f pre. induction s as [|c s IH]; intros f pre H Hx.
  - destruct pre; discriminate H.
  - destruct pre as [|p pre].
    + simpl in H. destruct (is_letter c) eqn:L.
      * injection H as E _. rewrite <- E in Hx.
        destruct f; [rewrite is_letter_lower_char in Hx
                    | rewrite is_letter_upper_char in Hx]; congruence.
      * injection H as _ H'.
        destruct s as [|d s]; [discriminate H'|]. simpl in H'.
        destruct (is_letter d) eqn:Ld; injection H' as Ey _.
        -- rewrite <- Ey. apply upper_char_not_lower.
        -- rewrite <- Ey. destruct (is_lower d) eqn:Ly; [|reflexivity].
           apply lower_is_letter in Ly. congruence.
    + simpl in H. destruct (is_letter c); injection H as _ H';
        apply (IH _ _ H' Hx).
Qed.

(** X5. The entry "Song of Songs" of the variations table is dead: the
    lookup key is title-cased first, which turns "of" into "Of", and no
    later step recognises the name, so "Song of Songs" resolves to nothing
    in any letter case, although the table maps it to SON. *)
Theorem song_of_songs_never_resolves :
  dict_get "Song of Songs" variations = Some "SON"
  /\ (forall s, title s <> "Song of Songs")
  /\ (forall s,
         lower (strip s) = "song of songs" ->
         _book_name_to_abbrev s = None).
Proof.
  split; [reflexivity|]. split.
  - intros s H. unfold title in H.
    pose proof (title_from_after_non_letter s false "Song" " " "o" "f Songs" H
                  eq_refl) as C.
    discriminate C.
  - intros s H.
    rewrite (book_name_to_abbrev_folded s "song of songs") by exact H.
    vm_compute. reflexivity.
Qed.

Lemma song_of_songs_witness : _book_name_to_abbrev " Song of Songs" = None.
Proof.
  apply (proj2 (proj2 song_of_songs_never_resolves)). vm_compute. reflexivity.
Defined.

(** ** Theme tagging: multiplicity and case *)







(** ** Note builder: rows need three columns *)

Lemma length_split_char c s :
  length (split_char c s) = S (count_char c s).
Proof.
  induction s as [|d s IH]; simpl; [reflexivity|].
  destruct (Ascii.eqb d c); simpl.
  - rewrite IH. reflexivity.
  - destruct (split_char c s); simpl in *; lia.
Qed.

Lemma count_char_lstrip c s : count_char c (lstrip s) <= count_char c s.
Proof.
  induction s as [|d s IH]; simpl; [lia|].
  destruct (is_space d); simpl; lia.
Qed.

Lemma count_char_rstrip c s : count_char c (rstrip s) <= count_char c s.
Proof.
  induction s as [|d s IH]; simpl; [lia|].
  destruct (is_space d && is_empty (rstrip s)); simpl; lia.
Qed.

Lemma count_char_strip c s : count_char c (strip s) <= count_char c s.
Proof.
  unfold strip. etransitivity; [apply count_char_rstrip|apply count_char_lstrip].
Qed.

(** X7. A line with fewer than two tab characters never creates a note:
    the parser state is returned as it was.  In particular a row with a
    reference and a note text but no category column is dropped. *)
Theorem rows_need_three_columns st line :
  count_char tab line < 2 -> parse_note_line st line = st.
Proof.
  intros H. unfold parse_note_line, note_row.
  destruct (is_empty (strip line) || startswith "#" (strip line));
    [reflexivity|].
  rewrite length_split_char.
  pose proof (count_char_strip tab line) as Hs.
  destruct (Nat.leb_spec 3 (S (count_char tab (strip line)))); [lia|].
  reflexivity.
Qed.

Lemma rows_need_three_columns_witness :
  parse_note_line scenario_store scenario_line_two_columns = scenario_store.
Proof.
  apply rows_need_three_columns. vm_compute. lia.
Defined.

(** ** Decimal text of numbers *)

Lemma int_of_string_of_uint d acc :
  fold_left (fun a c => 10 * a + digit_value c)
            (list_ascii_of_string (NilEmpty.string_of_uint d)) acc
  = Nat.of_uint_acc d acc.
Proof.
  revert acc. induction d; intros acc; simpl; [reflexivity|..];
    rewrite IHd, Nat.tail_mul_spec; f_equal; unfold digit_value;
    simpl; lia.
Qed.

(** Reading back the decimal text of a number gives the number. *)
Lemma int_of_str_of_nat n : int_of_digits (str_of_nat n) = n.
Proof.
  unfold int_of_digits, str_of_nat. rewrite int_of_string_of_uint.
  apply DecimalNat.Unsigned.of_to.
Qed.

Lemma list_ascii_of_string_app a b :
  list_ascii_of_string (a ++ b)
  = list_ascii_of_string a ++ list_ascii_of_string b.
Proof. induction a as [|c a IH]; simpl; [|rewrite IH]; reflexivity. Qed.

Lemma int_of_zero_pad w n : int_of_digits (zero_pad w n) = n.
Proof.
  unfold zero_pad, int_of_digits.
  rewrite list_ascii_of_string_app, fold_left_app.
  assert (Z : fold_left (fun a c => 10 * a + digit_value c)
                (list_ascii_of_string
                   (repeat_char "0" (w - String.length (str_of_nat n)))) 0
              = 0).
  { induction (w - String.length (str_of_nat n)) as [|k IH]; simpl;
      [reflexivity|exact IH]. }
  rewrite Z. apply int_of_str_of_nat.
Qed.

Lemma format_note_id_injective n m :
  format_note_id n = format_note_id m -> n = m.
Proof.
  unfold format_note_id. intros H. injection H as H.
  rewrite <- (int_of_zero_pad 4 n), <- (int_of_zero_pad 4 m), H.
  reflexivity.
Qed.

(** ** Note builder: ids and back-references *)

Lemma dict_keys_set_new (V : Type) k (v : V) d :
  ~ In k (dict_keys d) -> dict_keys (dict_set k v d) = dict_keys d ++ [k].
Proof.
  induction d as [|[a w] d IH]; simpl; intros H; [reflexivity|].
  destruct (String.eqb a k) eqn:E.
  - apply String.eqb_eq in E. tauto.
  - simpl. f_equal. apply IH. tauto.
Qed.

Lemma note_id_is_fresh c :
  1 <= c -> ~ In (format_note_id c) (map format_note_id (seq 1 (c - 1))).
Proof.
  intros Hc Hin. apply in_map_iff in Hin. destruct Hin as (m & E & Hm).
  apply format_note_id_injective in E. subst m. apply in_seq in Hm. lia.
Qed.

Lemma new_note_id_field c txt linked cat kws tags :
  note_id (new_note (format_note_id c) txt linked cat kws tags)
  = format_note_id c.
Proof. reflexivity. Qed.

(** The ids handed out so far are N0001 .. N(counter-1), in that order,
    and each note is stored under its own id. *)
Lemma parse_note_line_sequential st line :
  (1 <= note_counter st /\
   dict_keys (notes st) = map format_note_id (seq 1 (note_counter st - 1)) /\
   forall k n, In (k, n) (notes st) -> note_id n = k) ->
  1 <= note_counter (parse_note_line st line) /\
  dict_keys (notes (parse_note_line st line))
  = map format_note_id (seq 1 (note_counter (parse_note_line st line) - 1)) /\
  forall k n, In (k, n) (notes (parse_note_line st line)) -> note_id n = k.
Proof.
  intros (Hc & Hk & Hid). unfold parse_note_line.
  destruct (note_row line) as [parts|]; [|tauto].
  destruct (_parse_verse_reference (strip (nth 0 parts ""))) as [|r refs];
    [tauto|].
  cbn [_extract_cross_refs_from_note notes note_counter].
  split; [lia|]. split.
  - rewrite dict_keys_set_new
      by (rewrite Hk; apply note_id_is_fresh, Hc).
    rewrite Hk.
    replace (note_counter st + 1 - 1) with (S (note_counter st - 1)) by lia.
    rewrite seq_S, map_app. cbn [map].
    replace (1 + (note_counter st - 1)) with (note_counter st) by lia.
    reflexivity.
  - intros k n Hin. apply In_dict_set in Hin.
    destruct Hin as [[-> ->]|Hin]; [reflexivity | apply (Hid _ _ Hin)].
Qed.

Lemma parse_notes_tsv_sequential lines st :
  (1 <= note_counter st /\
   dict_keys (notes st) = map format_note_id (seq 1 (note_counter st - 1)) /\
   forall k n, In (k, n) (notes st) -> note_id n = k) ->
  1 <= note_counter (_parse_notes_tsv lines st) /\
  dict_keys (notes (_parse_notes_tsv lines st))
  = map format_note_id (seq 1 (note_counter (_parse_notes_tsv lines st) - 1)) /\
  forall k n, In (k, n) (notes (_parse_notes_tsv lines st)) -> note_id n = k.
Proof.
  unfold _parse_notes_tsv. revert st.
  induction lines as [|l lines IH]; intros st H; [exact H|].
  simpl. apply IH, parse_note_line_sequential, H.
Qed.

Lemma NoDup_map_injective (A B : Type) (f : A -> B) l :
  (forall x y, f x = f y -> x = y) -> NoDup l -> NoDup (map f l).
Proof.
  intros Hf. induction 1 as [|x l Hx Hl IH]; simpl; constructor; [|exact IH].
  intros Hin. apply in_map_iff in Hin. destruct Hin as (y & E & Hy).
  apply Hf in E. subst y. exact (Hx Hy).
Qed.

(** X8. Note ids are handed out in sequence and never reused: after any
    run of the Note Builder on a parser that has only read verses, the
    note table's keys are N0001, N0002, ... up to the counter minus one, in
    creation order and pairwise distinct, the counter is the number of
    notes plus one, and every note is stored under its own [note_id].
    The id format is injective (it widens beyond four digits instead of
    wrapping). *)
Theorem note_ids_are_sequential :
  (forall n m, format_note_id n = format_note_id m -> n = m)
  /\ (forall lines vs,
         dict_keys (notes (_parse_notes_tsv lines (parser_with_verses vs)))
         = map format_note_id
               (seq 1 (length (notes (_parse_notes_tsv lines
                                        (parser_with_verses vs)))))
         /\ NoDup (dict_keys (notes (_parse_notes_tsv lines
                                       (parser_with_verses vs))))
         /\ note_counter (_parse_notes_tsv lines (parser_with_verses vs))
            = length (notes (_parse_notes_tsv lines (parser_with_verses vs)))
              + 1
         /\ (forall k n,
                In (k, n) (notes (_parse_notes_tsv lines
                                    (parser_with_verses vs))) ->
                note_id n = k)).
Proof.
  split; [exact format_note_id_injective|].
  intros lines vs.
  destruct (parse_notes_tsv_sequential lines (parser_with_verses vs))
    as (Hc & Hk & Hid).
  { simpl. split; [lia|]. split; [reflexivity|]. intros k n []. }
  set (st := _parse_notes_tsv lines (parser_with_verses vs)) in *.
  assert (Hlen : length (notes st) = note_counter st - 1).
  { rewrite <- (length_map fst (notes st)).
    change (map fst (notes st)) with (dict_keys (notes st)).
    rewrite Hk, length_map, length_seq. reflexivity. }
  rewrite Hlen. split; [exact Hk|]. split; [|split; [lia|exact Hid]].
  rewrite Hk. apply NoDup_map_injective;
    [exact format_note_id_injective | apply seq_NoDup].
Qed.

Lemma count_occ_repeat (x y : string) k :
  count_occ string_dec (repeat x k) y = if string_dec x y then k else 0.
Proof.
  induction k as [|k IH]; simpl; [destruct (string_dec x y); reflexivity|].
  rewrite IH. destruct (string_dec x y); reflexivity.
Qed.

(** One iteration keeps the back-references of the stored verses in step
    with the links of the notes, occurrence for occurrence. *)
Lemma parse_note_line_mirror st line :
  (1 <= note_counter st /\
   dict_keys (notes st) = map format_note_id (seq 1 (note_counter st - 1)) /\
   forall k n, In (k, n) (notes st) -> note_id n = k) ->
  (forall id v nid,
      dict_get id (verses st) = Some v ->
      count_occ string_dec (note_ids v) nid
      = match dict_get nid (notes st) with
        | Some n => count_occ string_dec (linked_verses n) id
        | None => 0
        end) ->
  forall id v nid,
    dict_get id (verses (parse_note_line st line)) = Some v ->
    count_occ string_dec (note_ids v) nid
    = match dict_get nid (notes (parse_note_line st line)) with
      | Some n => count_occ string_dec (linked_verses n) id
      | None => 0
      end.
Proof.
  intros (Hc & Hk & _) Hinv id v nid.
  destruct (parse_note_line_cases st line)
    as [->|(parts & _ & _ & n0 & Hl & ->)]; [apply Hinv|].
  cbn [verses notes].
  rewrite link_note_to_verses_get, dict_get_set.
  destruct (dict_get id (verses st)) as [v0|] eqn:G; [|discriminate].
  cbn [option_map]. intros E. injection E as <-.
  cbn [note_ids extend_note_ids].
  rewrite count_occ_app, count_occ_repeat, (Hinv _ _ nid G).
  destruct (string_dec (format_note_id (note_counter st)) nid) as [<-|Hne].
  - rewrite String.eqb_refl, Hl.
    assert (F : dict_get (format_note_id (note_counter st)) (notes st) = None).
    { apply dict_get_keys. rewrite Hk. apply note_id_is_fresh, Hc. }
    rewrite F. reflexivity.
  - apply String.eqb_neq in Hne. rewrite Hne. lia.
Qed.

Lemma parse_notes_tsv_mirror lines st :
  (1 <= note_counter st /\
   dict_keys (notes st) = map format_note_id (seq 1 (note_counter st - 1)) /\
   forall k n, In (k, n) (notes st) -> note_id n = k) ->
  (forall id v nid,
      dict_get id (verses st) = Some v ->
      count_occ string_dec (note_ids v) nid
      = match dict_get nid (notes st) with
        | Some n => count_occ string_dec (linked_verses n) id
        | None => 0
        end) ->
  forall id v nid,
    dict_get id (verses (_parse_notes_tsv lines st)) = Some v ->
    count_occ string_dec (note_ids v) nid
    = match dict_get nid (notes (_parse_notes_tsv lines st)) with
      | Some n => count_occ string_dec (linked_verses n) id
      | None => 0
      end.
Proof.
  unfold _parse_notes_tsv. revert st.
  induction lines as [|l lines IH]; intros st Hseq Hinv; [exact Hinv|].
  simpl. apply IH.
  - apply parse_note_line_sequential, Hseq.
  - apply parse_note_line_mirror; assumption.
Qed.

(** X9. Back-references mirror the links.  Starting from a verse store
    without back-references, after any run of the Note Builder a stored
    verse lists a note id exactly as many times as that note lists the
    verse among its linked verses (not at all for an id that is no note);
    so a verse names a note if and only if the note links the verse, and a
    reference that repeats a verse repeats the back-reference. *)
Theorem back_references_mirror_links lines vs :
  no_back_references vs ->
  forall id v nid,
    dict_get id (verses (_parse_notes_tsv lines (parser_with_verses vs)))
    = Some v ->
    count_occ string_dec (note_ids v) nid
    = match dict_get nid (notes (_parse_notes_tsv lines
                                   (parser_with_verses vs))) with
      | Some n => count_occ string_dec (linked_verses n) id
      | None => 0
      end
    /\ (In nid (note_ids v) <->
        exists n,
          dict_get nid (notes (_parse_notes_tsv lines
                                 (parser_with_verses vs))) = Some n /\
          In id (linked_verses n)).
Proof.
  intros Hvs id v nid G.
  assert (C : count_occ string_dec (note_ids v) nid
              = match dict_get nid (notes (_parse_notes_tsv lines
                                             (parser_with_verses vs))) with
                | Some n => count_occ string_dec (linked_verses n) id
                | None => 0
                end).
  { apply (parse_notes_tsv_mirror lines (parser_with_verses vs)).
    - simpl. split; [lia|]. split; [reflexivity|]. intros k n [].
    - simpl. intros id0 v0 nid0 G0. apply dict_get_In in G0.
      rewrite (Hvs _ _ G0). reflexivity.
    - exact G. }
  split; [exact C|].
  rewrite (count_occ_In string_dec), C.
  destruct (dict_get nid (notes (_parse_notes_tsv lines
                                   (parser_with_verses vs)))) as [n|].
  - rewrite <- (count_occ_In string_dec). split.
    + intros H. exists n. split; [reflexivity|exact H].
    + intros (n' & E & H). injection E as <-. exact H.
  - split; [lia|]. intros (n' & E & _). discriminate E.
Qed.

Lemma back_references_witness :
  count_occ string_dec (note_ids (extend_note_ids ["N0001"; "N0001"] genesis_1_1))
            "N0001"
  = match dict_get "N0001"
            (notes (_parse_notes_tsv
                      [tsv_line ["Gen 1:1; Genesis 1:1-2"; "Twice"; "Misc"]]
                      (parser_with_verses [("GEN.1.1", genesis_1_1)]))) with
    | Some n => count_occ string_dec (linked_verses n) "GEN.1.1"
    | None => 0
    end.
Proof.
  apply (back_references_mirror_links
           [tsv_line ["Gen 1:1; Genesis 1:1-2"; "Twice"; "Misc"]]
           [("GEN.1.1", genesis_1_1)]).
  - intros id v [E|[]]. injection E as _ <-. reflexivity.
  - vm_compute. reflexivity.
Defined.

(** ** Cross-reference extractor: classification of the edges *)

Lemma registry_books_in_N :
  forallb (fun ab =>
             Bool.eqb (startswith "N" ab)
                      (existsb (String.eqb ab) ["NUM"; "NEH"; "NAH"]) &&
             negb (is_empty ab))
          (dict_keys BIBLE_BOOKS) = true.
Proof. vm_compute. reflexivity. Qed.

Lemma startswith_verse_id ab ch v :
  In ab (dict_keys BIBLE_BOOKS) ->
  startswith "N" (format_verse_id ab ch v)
  = existsb (String.eqb ab) ["NUM"; "NEH"; "NAH"].
Proof.
  intros Hin. pose proof registry_books_in_N as H.
  rewrite forallb_forall in H. specialize (H _ Hin).
  apply andb_true_iff in H. destruct H as [H1 H2].
  apply Bool.eqb_prop in H1. rewrite <- H1.
  destruct ab as [|a ab]; [discriminate H2|]. reflexivity.
Qed.

(** X10. How the edges of a run classify themselves.  No edge the Note
    Builder records is verse-to-verse.  An edge answers
    [is_note_to_verse] with True unless its target verse lies in Numbers,
    Nehemiah or Nahum: their abbreviations start with "N", the letter the
    property takes for the mark of a note id. *)
Theorem edge_self_classification lines vs x :
  In x (cross_refs (_parse_notes_tsv lines (parser_with_verses vs))) ->
  is_verse_to_verse x = false /\
  exists ab ch v,
    In ab (dict_keys BIBLE_BOOKS) /\
    target_id x = format_verse_id ab ch v /\
    is_note_to_verse x = negb (existsb (String.eqb ab) ["NUM"; "NEH"; "NAH"]).
Proof.
  intros Hin.
  destruct (parse_notes_tsv_edges lines (parser_with_verses vs)
              ltac:(intros y []) x Hin) as [(Hs & Ht & _ & _) _].
  destruct Hs as [n Hs]. destruct Ht as (ab & ch & v & Hab & _ & Ht).
  unfold is_verse_to_verse, is_note_to_verse. rewrite Hs, Ht.
  split; [reflexivity|]. exists ab, ch, v.
  split; [exact Hab|]. split; [reflexivity|].
  rewrite (startswith_verse_id ab ch v Hab). reflexivity.
Qed.

Lemma edge_self_classification_witness :
  is_verse_to_verse (explanation_edge "N0001" "NUM.6.24") = false /\
  exists ab ch v,
    In ab (dict_keys BIBLE_BOOKS) /\
    target_id (explanation_edge "N0001" "NUM.6.24") = format_verse_id ab ch v /\
    is_note_to_verse (explanation_edge "N0001" "NUM.6.24")
    = negb (existsb (String.eqb ab) ["NUM"; "NEH"; "NAH"]).
Proof.
  apply (edge_self_classification
           [tsv_line ["Genesis 1:1"; "See Numbers 6:24"; "Blessing"]] []).
  vm_compute. left. reflexivity.
Defined.

(** ** Cross-reference extractor: one edge per citation at most *)

Lemma run_text r cs s x :
  In x (run r cs s) -> s = (matched x ++ remaining x)%string.
Proof.
  revert cs s x.
  induction r as [p|r1 IH1 r2 IH2|r1 IH1 r2 IH2|r1 IH1|p|n r1 IH1];
    intros cs s x Hin; simpl in Hin.
  - destruct s as [|c t]; [destruct Hin|].
    destruct (p c); [|destruct Hin]. destruct Hin as [<-|[]]. reflexivity.
  - apply in_flat_map in Hin. destruct Hin as (a & Ha & Hin).
    apply in_map_iff in Hin. destruct Hin as (b & <- & Hb). simpl.
    rewrite append_assoc, <- (IH2 _ _ _ Hb). apply (IH1 _ _ _ Ha).
  - apply in_app_or in Hin. destruct Hin as [Hin|Hin];
      [apply (IH1 _ _ _ Hin) | apply (IH2 _ _ _ Hin)].
  - apply in_app_or in Hin. destruct Hin as [Hin|[<-|[]]];
      [apply (IH1 _ _ _ Hin) | reflexivity].
  - apply in_map_iff in Hin. destruct Hin as ([m t] & <- & Hmt). simpl.
    apply (plus_class_sound _ _ _ _ Hmt).
  - apply in_map_iff in Hin. destruct Hin as (a & <- & Ha). simpl.
    apply (IH1 _ _ _ Ha).
Qed.

Lemma run_matched_within P r cs s x :
  classes_within P r -> In x (run r cs s) ->
  all_chars P (matched x) = true.
Proof.
  revert cs s x.
  induction r as [p|r1 IH1 r2 IH2|r1 IH1 r2 IH2|r1 IH1|p|n r1 IH1];
    intros cs s x HP Hin; simpl in HP, Hin.
  - destruct s as [|c t]; [destruct Hin|].
    destruct (p c) eqn:Hc; [|destruct Hin]. destruct Hin as [<-|[]].
    unfold all_chars. simpl. rewrite (HP _ Hc). reflexivity.
  - destruct HP as [HP1 HP2].
    apply in_flat_map in Hin. destruct Hin as (a & Ha & Hin).
    apply in_map_iff in Hin. destruct Hin as (b & <- & Hb). simpl.
    rewrite all_chars_app, (IH1 _ _ _ HP1 Ha), (IH2 _ _ _ HP2 Hb).
    reflexivity.
  - destruct HP as [HP1 HP2].
    apply in_app_or in Hin. destruct Hin as [Hin|Hin];
      [apply (IH1 _ _ _ HP1 Hin) | apply (IH2 _ _ _ HP2 Hin)].
  - apply in_app_or in Hin. destruct Hin as [Hin|[<-|[]]];
      [apply (IH1 _ _ _ HP Hin) | reflexivity].
  - apply in_map_iff in Hin. destruct Hin as ([m t] & <- & Hmt). simpl.
    destruct (plus_class_sound _ _ _ _ Hmt) as (_ & Hall & _).
    apply (all_chars_impl p P m HP Hall).
  - apply in_map_iff in Hin. destruct Hin as (a & <- & Ha). simpl.
    apply (IH1 _ _ _ HP Ha).
Qed.

Lemma run_seq_parts r1 r2 cs s x :
  In x (run (Seq r1 r2) cs s) ->
  exists a b,
    In a (run r1 cs s) /\ In b (run r2 (groups a) (remaining a)) /\
    groups x = groups b /\ remaining x = remaining b.
Proof.
  simpl. intros Hin. apply in_flat_map in Hin. destruct Hin as (a & Ha & Hin).
  apply in_map_iff in Hin. destruct Hin as (b & <- & Hb).
  exists a, b. repeat split; assumption.
Qed.

(** What [findall] reports is the group-1 text of a first success at some
    position. *)
Lemma findall_from_In r k s g :
  In g (findall_from r k s) ->
  exists s' x, re_match r s' = Some x /\ g = group1_text x.
Proof.
  revert k. induction s as [|c t IH]; intros k; simpl.
  - destruct k; [|intros []].
    destruct (re_match r EmptyString) as [a|] eqn:M; [|intros []].
    intros [<-|[]]. exists EmptyString, a. split; [exact M|reflexivity].
  - destruct k as [|k]; [|apply IH].
    destruct (re_match r (String c t)) as [a|] eqn:M; [|apply IH].
    intros [<-|Hin]; [|apply (IH _ Hin)].
    exists (String c t), a. split; [exact M|reflexivity].
Qed.

Ltac by_ascii_impl c :=
  destruct c as [[] [] [] [] [] [] [] []]; intros H;
  try reflexivity; discriminate H.

Lemma ordinal_is_citation_char c :
  in_range 49 51 c = true -> citation_char c = true.
Proof. by_ascii_impl c. Qed.
Lemma space_is_citation_char c : is_space c = true -> citation_char c = true.
Proof. by_ascii_impl c. Qed.
Lemma letter_is_citation_char c : is_letter c = true -> citation_char c = true.
Proof. by_ascii_impl c. Qed.
Lemma digit_is_citation_char c : is_digit c = true -> citation_char c = true.
Proof. by_ascii_impl c. Qed.
Lemma dot_is_citation_char c : Ascii.eqb "." c = true -> citation_char c = true.
Proof. by_ascii_impl c. Qed.
Lemma colon_is_citation_char c : Ascii.eqb ":" c = true -> citation_char c = true.
Proof. by_ascii_impl c. Qed.
Lemma citation_char_not_separator c :
  citation_char c = true -> negb (is_ref_separator c) = true.
Proof. by_ascii_impl c. Qed.

Lemma run_chr_parts (p : ascii -> bool) cs s x :
  In x (run (Chr p) cs s) -> exists c t, s = String c t /\ p c = true.
Proof.
  simpl. destruct s as [|c t]; [intros []|].
  destruct (p c) eqn:Hc; [|intros []]. intros _. exists c, t.
  split; [reflexivity|exact Hc].
Qed.

Lemma run_opt_parts r cs s x :
  In x (run (Opt r) cs s) ->
  In x (run r cs s) \/ x = Success EmptyString cs s.
Proof.
  simpl. intros Hin. apply in_app_or in Hin.
  destruct Hin as [Hin|[<-|[]]]; [left; exact Hin | right; reflexivity].
Qed.

Lemma run_group_parts n r cs s x :
  In x (run (Group n r) cs s) ->
  exists a,
    In a (run r cs s) /\
    x = Success (matched a) ((n, matched a) :: groups a) (remaining a).
Proof.
  simpl. intros Hin. apply in_map_iff in Hin. destruct Hin as (a & <- & Ha).
  exists a. split; [exact Ha|reflexivity].
Qed.

(** Group 1 of a match of [cross_ref_pattern] holds citation characters
    only: no separator and no range dash. *)
Lemma cross_ref_capture_chars s x :
  re_match cross_ref_pattern s = Some x ->
  all_chars citation_char (group1_text x) = true.
Proof.
  unfold re_match. intros M. apply first_success_In in M.
  unfold cross_ref_pattern in M.
  apply run_seq_parts in M. destruct M as (a1 & b1 & _ & M & G1 & _).
  apply run_seq_parts in M. destruct M as (a2 & b2 & _ & M & G2 & _).
  apply run_group_parts in M. destruct M as (a3 & Ha3 & E).
  unfold group1_text. rewrite G1, G2, E. simpl.
  apply (run_matched_within citation_char _ _ _ _) in Ha3; [exact Ha3|].
  simpl. repeat split;
    auto using ordinal_is_citation_char, space_is_citation_char,
      letter_is_citation_char, digit_is_citation_char,
      dot_is_citation_char, colon_is_citation_char.
Qed.

Lemma all_chars_app_r P a b :
  all_chars P (a ++ b) = true -> all_chars P b = true.
Proof.
  rewrite all_chars_app. intros H. apply andb_true_iff in H. tauto.
Qed.

Lemma all_chars_lstrip P s :
  all_chars P s = true -> all_chars P (lstrip s) = true.
Proof.
  unfold all_chars. induction s as [|c s IH]; simpl; [reflexivity|].
  intros H. pose proof H as H'. apply andb_true_iff in H'.
  destruct (is_space c); [apply IH; tauto | exact H].
Qed.

Lemma all_chars_rstrip P s :
  all_chars P s = true -> all_chars P (rstrip s) = true.
Proof.
  unfold all_chars. induction s as [|c s IH]; simpl; [reflexivity|].
  intros H. apply andb_true_iff in H. destruct H as [Hc Hs].
  destruct (is_space c && is_empty (rstrip s)); [reflexivity|].
  simpl. rewrite Hc. apply IH, Hs.
Qed.

Lemma all_chars_strip P s :
  all_chars P s = true -> all_chars P (strip s) = true.
Proof. intros H. apply all_chars_rstrip, all_chars_lstrip, H. Qed.

(** A fragment that matches with an end verse contains a dash. *)
Lemma reference_end_needs_dash P frag b ch sv e :
  reference_groups frag = Some (b, ch, sv, Some e) ->
  all_chars P frag = true -> P "-"%char = true.
Proof.
  unfold reference_groups, re_match.
  destruct (first_success reference_pattern [] frag) as [m|] eqn:F;
    [|discriminate].
  apply first_success_In in F. unfold reference_pattern in F.
  intros G Hall.
  apply run_seq_parts in F. destruct F as (a1 & b1 & Ha1 & F & G1 & _).
  rewrite (run_text _ _ _ _ Ha1) in Hall. apply all_chars_app_r in Hall.
  apply run_group_parts in Ha1. destruct Ha1 as (a0 & Ha0 & E1).
  apply (run_group_free book_token) in Ha0; [|reflexivity].
  rewrite E1 in F, Hall. simpl groups in F. simpl remaining in F, Hall.
  rewrite Ha0 in F. clear E1 Ha0.
  apply run_seq_parts in F. destruct F as (a2 & b2 & Ha2 & F & G2 & _).
  rewrite (run_text _ _ _ _ Ha2) in Hall. apply all_chars_app_r in Hall.
  apply run_group_free in Ha2; [|reflexivity]. rewrite Ha2 in F.
  apply run_seq_parts in F. destruct F as (a3 & b3 & Ha3 & F & G3 & _).
  rewrite (run_text _ _ _ _ Ha3) in Hall. apply all_chars_app_r in Hall.
  apply run_group_free in Ha3; [|reflexivity]. rewrite Ha3 in F.
  apply run_seq_parts in F. destruct F as (a4 & b4 & Ha4 & F & G4 & _).
  rewrite (run_text _ _ _ _ Ha4) in Hall. apply all_chars_app_r in Hall.
  apply run_number_group in Ha4. destruct Ha4 as (d2 & _ & E4).
  rewrite E4 in F.
  apply run_seq_parts in F. destruct F as (a5 & b5 & Ha5 & F & G5 & _).
  rewrite (run_text _ _ _ _ Ha5) in Hall. apply all_chars_app_r in Hall.
  apply run_group_free in Ha5; [|reflexivity]. rewrite Ha5 in F.
  apply run_seq_parts in F. destruct F as (a6 & b6 & Ha6 & F & G6 & _).
  rewrite (run_text _ _ _ _ Ha6) in Hall. apply all_chars_app_r in Hall.
  apply run_number_group in Ha6. destruct Ha6 as (d3 & _ & E6).
  rewrite E6 in F.
  rewrite G1, G2, G3, G4, G5, G6 in G.
  apply run_opt_parts in F. destruct F as [F| ->].
  - apply run_seq_parts in F. destruct F as (a7 & b7 & Ha7 & _).
    apply run_chr_parts in Ha7. destruct Ha7 as (c & t & Et & Ec).
    apply Ascii.eqb_eq in Ec. subst c. rewrite Et in Hall.
    unfold all_chars in Hall. cbn [list_ascii_of_string forallb] in Hall.
    apply andb_true_iff in Hall. tauto.
  - simpl in G. discriminate G.
Qed.

Lemma parse_fragment_without_dash frag :
  all_chars citation_char frag = true -> length (parse_fragment frag) <= 1.
Proof.
  intros Hall. unfold parse_fragment.
  destruct (reference_groups frag) as [[[[b ch] sv] [e|]]|] eqn:G;
    [| |simpl; lia].
  - apply (reference_end_needs_dash citation_char) in G; [|exact Hall].
    discriminate G.
  - destruct (_book_name_to_abbrev b); [|simpl; lia].
    rewrite length_map. unfold py_range. rewrite length_seq. lia.
Qed.

Lemma parse_citation_text g :
  all_chars citation_char g = true ->
  length (_parse_verse_reference g) <= 1.
Proof.
  intros Hall. unfold _parse_verse_reference, ref_parts.
  rewrite re_split_no_separator
    by (apply (all_chars_impl citation_char _ g citation_char_not_separator
                 Hall)).
  simpl map. simpl filter.
  destruct (negb (is_empty (strip g))); [|simpl; lia].
  cbn [flat_map]. rewrite app_nil_r.
  apply parse_fragment_without_dash, all_chars_strip, Hall.
Qed.

Lemma length_flat_map_le (A B : Type) (f : A -> list B) l :
  (forall x, In x l -> length (f x) <= 1) ->
  length (flat_map f l) <= length l.
Proof.
  induction l as [|x l IH]; intros H; simpl; [lia|].
  rewrite length_app.
  pose proof (H x (or_introl eq_refl)).
  assert (length (flat_map f l) <= length l)
    by (apply IH; intros y Hy; apply H; right; exact Hy).
  lia.
Qed.

(** X11. The Cross-Reference Extractor never expands a range or a list:
    the text it captures after a cue phrase consists of letters,
    whitespace, digits, dots and colons only, each capture resolves to at
    most one verse id, and so a note yields at most as many edges as its
    text has cue-phrase matches. *)
Theorem one_edge_per_citation :
  (forall note_text g,
      In g (findall cross_ref_pattern note_text) ->
      all_chars citation_char g = true /\
      length (_parse_verse_reference g) <= 1)
  /\ (forall note_id note_text,
         length (extracted_cross_refs note_id note_text)
         <= length (findall cross_ref_pattern note_text)).
Proof.
  assert (H : forall note_text g,
             In g (findall cross_ref_pattern note_text) ->
             all_chars citation_char g = true /\
             length (_parse_verse_reference g) <= 1).
  { intros note_text g Hin. apply findall_from_In in Hin.
    destruct Hin as (s' & x & M & ->).
    pose proof (cross_ref_capture_chars _ _ M) as Hall.
    split; [exact Hall | apply parse_citation_text, Hall]. }
  split; [exact H|].
  intros note_id note_text. unfold extracted_cross_refs.
  apply length_flat_map_le. intros g Hg. rewrite length_map.
  apply (H note_text g Hg).
Qed.

Lemma one_edge_per_citation_witness :
  all_chars citation_char "Romans 5:12" = true /\
  length (_parse_verse_reference "Romans 5:12") <= 1.
Proof.
  apply (proj1 one_edge_per_citation "cf. Romans 5:12-21; 8:1, see John 3:16").
  vm_compute. left. reflexivity.
Defined.

(** ** Reading plans: full days and their number *)

(** The packing loop closes a day only when it holds exactly 10 verses. *)
Lemma pack_fold_full_days xs ds cur :
  Forall (fun day => length day = 10) ds -> length cur <= 10 ->
  (cur = [] -> ds = []) ->
  Forall (fun day => length day = 10)
         (fst (fold_left pack_step xs (ds, cur)))
  /\ length (snd (fold_left pack_step xs (ds, cur))) <= 10
  /\ (snd (fold_left pack_step xs (ds, cur)) = [] ->
      fst (fold_left pack_step xs (ds, cur)) = []).
Proof.
  revert ds cur. induction xs as [|x xs IH]; intros ds cur Hds Hcur He.
  - simpl. auto.
  - simpl fold_left.
    assert (E : pack_step (ds, cur) x
                = if 10 <=? length cur
                  then (ds ++ [cur], [x]) else (ds, cur ++ [x]))
      by reflexivity.
    rewrite E. clear E.
    destruct (Nat.leb_spec 10 (length cur)) as [Hfull|Hroom].
    + apply IH.
      * apply Forall_app. split; [exact Hds|]. constructor; [lia|constructor].
      * simpl. lia.
      * discriminate.
    + apply IH.
      * exact Hds.
      * rewrite length_app. simpl. lia.
      * intros C. apply app_eq_nil in C. destruct C as [_ C]. discriminate C.
Qed.

Lemma removelast_snoc (A : Type) (l : list A) x : removelast (l ++ [x]) = l.
Proof. apply removelast_last. Qed.

Lemma last_snoc (A : Type) (l : list A) x d : last (l ++ [x]) d = x.
Proof. apply last_last. Qed.

(** X12. The daily readings are the book-grouped, book-capped verse
    sequence cut into consecutive days: concatenated they give the sequence
    back in order, every day but the last holds exactly 10 verses, the last
    between 1 and 10, and there are ceil(n / 10) days for n verses. *)
Theorem days_are_consecutive_tens by_book :
  concat (pack_days by_book)
  = flat_map (fun kv => firstn 20 (snd kv)) by_book
  /\ Forall (fun day => length day = 10) (removelast (pack_days by_book))
  /\ (pack_days by_book <> [] ->
      1 <= length (last (pack_days by_book) []) <= 10)
  /\ length (pack_days by_book)
     = (length (flat_map (fun kv => firstn 20 (snd kv)) by_book) + 9) / 10.
Proof.
  destruct (pack_days_spec by_book) as [Hb Hc].
  assert (Hfull : Forall (fun day => length day = 10)
                         (removelast (pack_days by_book))
                  /\ (pack_days by_book <> [] ->
                      1 <= length (last (pack_days by_book) []) <= 10)).
  { clear Hb Hc. unfold pack_days. rewrite pack_nested_flat.
    destruct (pack_fold_full_days
                (flat_map (fun kv => firstn 20 (snd kv)) by_book) [] [])
      as (H1 & H2 & H3); [constructor | simpl; lia | reflexivity |].
    destruct (fold_left pack_step _ ([], [])) as [ds cur].
    cbn [fst snd] in *. destruct cur as [|c cur].
    - rewrite (H3 eq_refl). split; [constructor|]. intros C. congruence.
    - rewrite removelast_snoc, last_snoc. split; [exact H1|].
      intros _. simpl in *. lia. }
  destruct Hfull as [Hfull Hlast].
  split; [exact Hc|]. split; [exact Hfull|]. split; [exact Hlast|].
  rewrite <- Hc, length_concat.
  set (D := pack_days by_book) in *. clearbody D. clear Hb Hc.
  destruct D as [|d0 ds0]; [reflexivity|].
  destruct (@exists_last _ (d0 :: ds0)) as (l & x & El); [discriminate|].
  rewrite El in *. clear El d0 ds0.
  rewrite removelast_snoc in Hfull.
  assert (Hx : 1 <= length x <= 10).
  { rewrite last_snoc in Hlast. apply Hlast. intros C.
    apply app_eq_nil in C. destruct C as [_ C]. discriminate C. }
  rewrite map_app, list_sum_app, length_app.
  change (list_sum (map (@length string) [x])) with (length x + 0).
  change (length [x]) with 1.
  assert (Hsum : list_sum (map (@length string) l) = 10 * length l).
  { clear -Hfull. induction Hfull as [|d l Hd _ IH]; simpl; [reflexivity|].
    rewrite IH, Hd. lia. }
  rewrite Hsum.
  apply (Nat.div_unique _ 10 _ (length x - 1)); lia.
Qed.

Lemma days_are_consecutive_tens_witness :
  1 <= length (last (pack_days sample_by_book) []) <= 10
  /\ length (pack_days sample_by_book) = 3.
Proof.
  destruct (days_are_consecutive_tens sample_by_book) as (_ & _ & H & Hn).
  split.
  - apply H. vm_compute. discriminate.
  - rewrite Hn. vm_compute. reflexivity.
Defined.

(** ** Reading plans: when nothing is generated *)

Lemma plan_for_theme_below_threshold vs idx acc th :
  (forall k t, In (k, t) idx -> total_references t <= 10) ->
  plan_for_theme vs idx acc th = acc.
Proof.
  intros H. unfold plan_for_theme.
  destruct (find_theme th idx) as [p|]; [|reflexivity].
  destruct (nth_error idx p) as [[k t]|] eqn:E; [|reflexivity].
  apply nth_error_In in E. specialize (H _ _ E).
  destruct (Nat.ltb_spec 10 (total_references t)); [lia|reflexivity].
Qed.

Lemma group_by_book_empty_store ids : group_by_book [] ids = [].
Proof.
  unfold group_by_book. induction ids as [|i ids IH]; [reflexivity|exact IH].
Qed.

Lemma plan_for_theme_empty_store idx acc th :
  plan_for_theme [] idx acc th = acc.
Proof.
  unfold plan_for_theme.
  destruct (find_theme th idx) as [p|]; [|reflexivity].
  destruct (nth_error idx p) as [[k t]|]; [|reflexivity].
  unfold plan_days. rewrite group_by_book_empty_store.
  destruct (10 <? total_references t); reflexivity.
Qed.

Lemma fold_left_unchanged (A B : Type) (f : A -> B -> A) l a :
  (forall a b, f a b = a) -> fold_left f l a = a.
Proof.
  intros H. induction l as [|b l IH]; simpl; [reflexivity|].
  rewrite H. exact IH.
Qed.

(** X13. The Reading-Plan Generator adds nothing and leaves the parser as
    it was when no theme of the index has more than 10 references (in
    particular when the index is empty), and also when the verse store is
    empty, however many references the themes have. *)
Theorem no_plan_without_material st :
  ((forall k t, In (k, t) (thematic_index st) -> total_references t <= 10) ->
   generate_reading_plans st = st)
  /\ (verses st = [] -> generate_reading_plans st = st).
Proof.
  split.
  - intros H. unfold generate_reading_plans.
    rewrite fold_left_unchanged
      by (intros a b; apply plan_for_theme_below_threshold, H).
    destruct st. reflexivity.
  - intros H. unfold generate_reading_plans. rewrite H.
    rewrite fold_left_unchanged
      by (intros a b; apply plan_for_theme_empty_store).
    destruct st. simpl in *. rewrite H. reflexivity.
Qed.

Lemma no_plan_without_material_witness :
  generate_reading_plans scenario_result = scenario_result.
Proof.
  apply (proj1 (no_plan_without_material scenario_result)).
  intros k t H. vm_compute in H. destruct H.
Defined.

(** ** Thematic indexer: one theme per tag in use *)

Lemma extended_extended o l1 l2 :
  extended (extended o l1) l2 = extended o (l1 ++ l2).
Proof.
  destruct o as [l0|]; simpl; [rewrite app_assoc; reflexivity|].
  destruct l1; simpl; [destruct l2|]; reflexivity.
Qed.

Lemma extended_nil o : extended o [] = o.
Proof. destruct o; simpl; [rewrite app_nil_r|]; reflexivity. Qed.

Lemma tag_fold_get k tags d th :
  dict_get th (fold_left (fun d theme => dd_append theme k d) tags d)
  = extended (dict_get th d)
             (repeat k (count_occ string_dec tags th)).
Proof.
  revert d. induction tags as [|tg tags IH]; intros d.
  - simpl. symmetry. apply extended_nil.
  - simpl fold_left. rewrite IH, dd_append_get. simpl count_occ.
    destruct (string_dec tg th) as [->|Hne].
    + rewrite String.eqb_refl.
      destruct (dict_get th d) as [l|]; simpl;
        [rewrite <- app_assoc|]; reflexivity.
    + apply String.eqb_neq in Hne. rewrite Hne. reflexivity.
Qed.

Lemma tag_fold_NoDup k tags d :
  NoDup (dict_keys d) ->
  NoDup (dict_keys (fold_left (fun d theme => dd_append theme k d) tags d)).
Proof.
  revert d. induction tags as [|tg tags IH]; intros d H; [exact H|].
  simpl. apply IH, dd_append_NoDup, H.
Qed.

Lemma collect_tags_fst k linked tags acc :
  fst (fold_left
         (fun (acc : dict (list string) * dict (list string)) theme =>
            (dd_append theme k (fst acc), dd_extend theme linked (snd acc)))
         tags acc)
  = fold_left (fun d theme => dd_append theme k d) tags (fst acc).
Proof.
  revert acc. induction tags as [|tg tags IH]; intros acc; [reflexivity|].
  simpl. rewrite IH. reflexivity.
Qed.

Lemma collect_notes_fold ns acc th :
  NoDup (dict_keys (fst acc)) ->
  NoDup (dict_keys
           (fst (fold_left
                   (fun acc kv =>
                      fold_left
                        (fun (acc : dict (list string) * dict (list string))
                             theme =>
                           (dd_append theme (fst kv) (fst acc),
                            dd_extend theme (linked_verses (snd kv))
                                      (snd acc)))
                        (theme_tags (snd kv)) acc)
                   ns acc)))
  /\ dict_get th
       (fst (fold_left
               (fun acc kv =>
                  fold_left
                    (fun (acc : dict (list string) * dict (list string))
                         theme =>
                       (dd_append theme (fst kv) (fst acc),
                        dd_extend theme (linked_verses (snd kv)) (snd acc)))
                    (theme_tags (snd kv)) acc)
               ns acc))
     = extended (dict_get th (fst acc)) (notes_citing th ns).
Proof.
  revert acc. induction ns as [|kv ns IH]; intros acc Hnd.
  - simpl. split; [exact Hnd|]. symmetry. apply extended_nil.
  - simpl fold_left.
    destruct (IH (fold_left
                    (fun (acc : dict (list string) * dict (list string))
                         theme =>
                       (dd_append theme (fst kv) (fst acc),
                        dd_extend theme (linked_verses (snd kv)) (snd acc)))
                    (theme_tags (snd kv)) acc)) as [H1 H2].
    { rewrite collect_tags_fst. apply tag_fold_NoDup, Hnd. }
    split; [exact H1|]. rewrite H2, collect_tags_fst, tag_fold_get.
    rewrite extended_extended. reflexivity.
Qed.

(** The notes of each theme as the first pass gathers them. *)
Lemma collect_notes_spec ns :
  NoDup (dict_keys (fst (collect_notes ns)))
  /\ forall th ids,
       In (th, ids) (fst (collect_notes ns)) <->
       ids = notes_citing th ns /\ ids <> [].
Proof.
  unfold collect_notes.
  assert (Hnd : NoDup (dict_keys (fst (@nil (string * list string),
                                       @nil (string * list string)))))
    by constructor.
  split; [apply (collect_notes_fold ns _ EmptyString Hnd)|].
  intros th ids.
  destruct (collect_notes_fold ns _ th Hnd) as [H1 H2]. simpl in H2.
  split.
  - intros Hin. apply (In_dict_get _ _ _ _ H1) in Hin. rewrite H2 in Hin.
    destruct (notes_citing th ns); [discriminate|].
    injection Hin as <-. split; [reflexivity|discriminate].
  - intros [-> Hne]. apply dict_get_In. rewrite H2.
    destruct (notes_citing th ns); [congruence|reflexivity].
Qed.

Lemma format_theme_id_injective n m :
  format_theme_id n = format_theme_id m -> n = m.
Proof.
  unfold format_theme_id. intros H. injection H as H.
  rewrite <- (int_of_zero_pad 3 n), <- (int_of_zero_pad 3 m), H.
  reflexivity.
Qed.

Lemma theme_view_app a b : theme_view (a ++ b) = theme_view a ++ theme_view b.
Proof. apply map_app. Qed.

Lemma dict_set_new (V : Type) k (v : V) d :
  ~ In k (dict_keys d) -> dict_set k v d = d ++ [(k, v)].
Proof.
  induction d as [|[a w] d IH]; simpl; intros H; [reflexivity|].
  destruct (String.eqb a k) eqn:E.
  - apply String.eqb_eq in E. tauto.
  - f_equal. apply IH. tauto.
Qed.

(** The second pass appends one entry per collected theme, under a fresh
    id. *)
Lemma materialize_all_view list_of_set tv kvs idx c0 c :
  c0 <= c ->
  dict_keys idx = map format_theme_id (seq c0 (c - c0)) ->
  theme_view (fst (fold_left (materialize list_of_set tv) kvs (idx, c)))
  = theme_view idx ++ kvs.
Proof.
  revert idx c. induction kvs as [|[th ids] kvs IH]; intros idx c Hc Hk.
  - simpl. rewrite app_nil_r. reflexivity.
  - simpl fold_left. unfold materialize at 2. cbn [fst snd].
    assert (Hfresh : ~ In (format_theme_id c) (dict_keys idx)).
    { rewrite Hk. intros Hin. apply in_map_iff in Hin.
      destruct Hin as (m & E & Hm). apply format_theme_id_injective in E.
      subst m. apply in_seq in Hm. lia. }
    rewrite (dict_set_new _ _ _ _ Hfresh).
    rewrite (IH _ (c + 1)).
    + rewrite theme_view_app. simpl. rewrite <- app_assoc. reflexivity.
    + lia.
    + unfold dict_keys in *. rewrite map_app, Hk. simpl.
      replace (c + 1 - c0) with (S (c - c0)) by lia.
      rewrite seq_S, map_app. simpl.
      replace (c0 + (c - c0)) with c by lia. reflexivity.
Qed.

Lemma theme_view_update_at i f idx :
  (forall t, name (f t) = name t /\ theme_note_ids (f t) = theme_note_ids t) ->
  theme_view (update_at i f idx) = theme_view idx.
Proof.
  intros Hf. unfold theme_view. revert i.
  induction idx as [|[k t] idx IH]; intros i; [destruct i; reflexivity|].
  destruct i as [|i]; simpl.
  - destruct (Hf t) as [-> ->]. reflexivity.
  - f_equal. apply IH.
Qed.

Lemma theme_view_link_step p child_name idx j :
  theme_view (link_step p child_name idx j) = theme_view idx.
Proof.
  unfold link_step.
  destruct (nth_error idx j) as [[ck child]|]; [|reflexivity].
  destruct (nth_error idx p) as [[pk parent]|]; [|reflexivity].
  destruct (String.eqb (name child) child_name); [|reflexivity].
  rewrite !theme_view_update_at; [reflexivity| |];
    intros t; split; reflexivity.
Qed.

Lemma theme_view_build_relationships idx :
  theme_view (_build_theme_relationships idx) = theme_view idx.
Proof.
  unfold _build_theme_relationships. generalize theme_hierarchies.
  intros hs. revert idx. induction hs as [|h hs IH]; intros idx;
    [reflexivity|].
  simpl. rewrite IH. clear IH. unfold link_hierarchy.
  destruct (find_theme (fst h) idx) as [p|]; [|reflexivity].
  generalize (snd h). intros cs. revert idx.
  induction cs as [|c cs IHc]; intros idx; [reflexivity|].
  simpl. rewrite IHc. clear IHc. unfold link_child.
  generalize (seq 0 (length idx)). intros js. revert idx.
  induction js as [|j js IHj]; intros idx; [reflexivity|].
  simpl. rewrite IHj. apply theme_view_link_step.
Qed.

(** X14. Indexing a parser whose theme index is still empty materializes
    exactly one theme per tag in use: the names of the index are pairwise
    distinct, and a theme named [th] with note list [ids] is in the index
    if and only if [ids] is the non-empty list of the notes tagged [th],
    each note as many times as it carries the tag (twice for
    "Resurrection").  A theme that only verse keywords point to is not
    materialized. *)
Theorem themes_are_the_tags_in_use list_of_set st :
  thematic_index st = [] ->
  NoDup (map fst (theme_view
                    (thematic_index (build_thematic_network list_of_set st))))
  /\ forall th ids,
       In (th, ids)
          (theme_view (thematic_index (build_thematic_network list_of_set st)))
       <-> ids = notes_citing th (notes st) /\ ids <> [].
Proof.
  intros Hidx.
  assert (E : theme_view
                (thematic_index (build_thematic_network list_of_set st))
              = fst (collect_notes (notes st))).
  { unfold build_thematic_network. cbn [thematic_index].
    rewrite theme_view_build_relationships, Hidx.
    rewrite (materialize_all_view _ _ _ [] (theme_counter st));
      [reflexivity | lia |].
    rewrite Nat.sub_diag. reflexivity. }
  rewrite E. apply collect_notes_spec.
Qed.

Lemma themes_are_the_tags_in_use_witness :
  NoDup (map fst (theme_view (thematic_index study_index)))
  /\ In ("Salvation", map format_note_id (seq 1 11))
        (theme_view (thematic_index study_index)).
Proof.
  destruct (themes_are_the_tags_in_use (nodup string_dec) study_notes)
    as [H1 H2]; [vm_compute; reflexivity|].
  split; [exact H1|].
  refine (proj2 (H2 "Salvation" (map format_note_id (seq 1 11))) _).
  split; vm_compute; [reflexivity|discriminate].
Defined.
